(** * square_skill_api.models.prediction

    A shallow embedding of [src/square_skill_api/models/prediction.py]:
    the four pydantic models ([PredictionOutput], [PredictionDocument],
    [Prediction], [QueryOutput]), the ranking key and the sorting validator
    of [QueryOutput], the context fan-out helper and the two adapter
    constructors.

    Conventions of the embedding.
    - Python values that reach the code untyped (the raw payload, the
      [context] and [context_score] arguments, the argument of the ranking
      key) are terms of [pyval], the JSON fragment of Python's values.
    - A Python [float] is a rational number or NaN ([pyfloat]); every
      comparison with NaN is false.  A NaN carries the name of its
      object, since a tuple or a list takes an item that is the same
      object as the other for equal to it.  The infinities are outside
      the model.
    - [list.sort] is modelled step by step, as CPython 3.11 runs it,
      for a list of fewer than 64 elements; the merge phase it runs on a
      longer list is a parameter ([MergePhase]) of which only the
      contract is fixed.
    - A call that may raise returns a [result]: [Ok v] or [Err e] with
      [e] the class of the exception.  Statements run left to right in the
      [result] monad, so the first exception aborts the call.
    - pydantic's field validation is a parameter ([FieldCoercion]): only
      what it does on a value that already has the field's type is
      assumed.  A keyword argument that names no field is ignored, which
      is pydantic's default. *)

From Stdlib Require Import String Ascii List Bool ZArith QArith Lia Lqa.
From Stdlib Require Import Permutation Sorted.
Import ListNotations.

Local Open Scope string_scope.
Local Open Scope Z_scope.

(** ** Exceptions and the result monad *)

Inductive exn : Type :=
| KeyError
| IndexError
| TypeError
| ValueError
| AttributeError
| AssertionError
| ValidationError.

Inductive result (A : Type) : Type :=
| Ok (a : A)
| Err (e : exn).

Arguments Ok {A} a.
Arguments Err {A} e.

Definition bind {A B : Type} (c : result A) (k : A -> result B) : result B :=
  match c with
  | Ok a => k a
  | Err e => Err e
  end.

Notation "x <- c ;; k" := (bind c (fun x => k))
  (at level 61, c at next level, right associativity).
Notation "' pat <- c ;; k" := (bind c (fun x => match x with pat => k end))
  (at level 61, pat pattern, c at next level, right associativity).

Fixpoint mapM {A B : Type} (f : A -> result B) (l : list A) : result (list B) :=
  match l with
  | [] => Ok []
  | x :: l' =>
      y <- f x ;;
      ys <- mapM f l' ;;
      Ok (y :: ys)
  end.

(** ** Python values *)

(** A float: a number, or the NaN object [obj]. *)
Inductive pyfloat : Type :=
| Finite (x : Q)
| NaN (obj : nat).

Coercion Finite : Q >-> pyfloat.
Bind Scope Q_scope with pyfloat.

Definition Qltb (x y : Q) : bool :=
  match Qcompare x y with Lt => true | _ => false end.

(** [a == b] and [a < b] on floats *)
Definition float_eqb (a b : pyfloat) : bool :=
  match a, b with
  | Finite x, Finite y => Qeq_bool x y
  | _, _ => false
  end.

Definition float_ltb (a b : pyfloat) : bool :=
  match a, b with
  | Finite x, Finite y => Qltb x y
  | _, _ => false
  end.

(** [a is b or a == b] on floats *)
Definition float_same (a b : pyfloat) : bool :=
  match a, b with
  | NaN i, NaN j => Nat.eqb i j
  | _, _ => float_eqb a b
  end.

#[warnings="-register-all"]
Inductive pyval : Type :=
| PyNone
| PyBool (b : bool)
| PyInt (n : Z)
| PyFloat (x : pyfloat)
| PyStr (s : string)
| PyList (l : list pyval)
| PyDict (d : list (string * pyval)).

(** A dict is an association list; the first binding of a key is the one
    that counts. *)
Fixpoint assoc {A : Type} (k : string) (d : list (string * A)) : option A :=
  match d with
  | [] => None
  | (k', v) :: d' => if String.eqb k k' then Some v else assoc k d'
  end.

Fixpoint dict_keys_from {A : Type} (seen : list string) (d : list (string * A))
  : list string :=
  match d with
  | [] => []
  | (k, _) :: d' =>
      if existsb (String.eqb k) seen then dict_keys_from seen d'
      else k :: dict_keys_from (k :: seen) d'
  end.

Definition dict_keys {A : Type} (d : list (string * A)) : list string :=
  dict_keys_from [] d.

(** [bool(v)] *)
Definition py_truthy (v : pyval) : bool :=
  match v with
  | PyNone => false
  | PyBool b => b
  | PyInt n => negb (n =? 0)
  | PyFloat x => negb (float_eqb x 0)
  | PyStr s => negb (String.eqb s "")
  | PyList l => match l with [] => false | _ :: _ => true end
  | PyDict d => match d with [] => false | _ :: _ => true end
  end.

(** [v[key]] for a string [key] *)
Definition getitem_str (v : pyval) (key : string) : result pyval :=
  match v with
  | PyDict d =>
      match assoc key d with
      | Some x => Ok x
      | None => Err KeyError
      end
  | _ => Err TypeError
  end.

Definition nth_index {A : Type} (l : list A) (i : Z) : option A :=
  if 0 <=? i then nth_error l (Z.to_nat i)
  else if 0 <=? Z.of_nat (length l) + i
       then nth_error l (Z.to_nat (Z.of_nat (length l) + i))
       else None.

Definition chars (s : string) : list pyval :=
  map (fun c => PyStr (String c EmptyString)) (list_ascii_of_string s).

(** [v[i]] for an integer [i] *)
Definition getitem_int (v : pyval) (i : Z) : result pyval :=
  match v with
  | PyList l =>
      match nth_index l i with
      | Some x => Ok x
      | None => Err IndexError
      end
  | PyStr s =>
      match nth_index (chars s) i with
      | Some x => Ok x
      | None => Err IndexError
      end
  | PyDict _ => Err KeyError
  | _ => Err TypeError
  end.

(** [v.get(key, default)] *)
Definition py_get (v : pyval) (key : string) (default : pyval) : result pyval :=
  match v with
  | PyDict d =>
      match assoc key d with
      | Some x => Ok x
      | None => Ok default
      end
  | _ => Err AttributeError
  end.

(** [iter(v)], run to the end *)
Definition py_iter (v : pyval) : result (list pyval) :=
  match v with
  | PyList l => Ok l
  | PyStr s => Ok (chars s)
  | PyDict d => Ok (map PyStr (dict_keys d))
  | _ => Err TypeError
  end.

(** The value of a number: of a [bool], an [int] or a [float]. *)
Definition py_number (v : pyval) : option pyfloat :=
  match v with
  | PyBool b => Some (Finite (if b then 1 else 0))
  | PyInt n => Some (Finite (inject_Z n))
  | PyFloat x => Some x
  | _ => None
  end.

(** [a is b], where it is not also [a == b]: of one NaN object. *)
Definition identical (a b : pyval) : bool :=
  match a, b with
  | PyFloat (NaN i), PyFloat (NaN j) => Nat.eqb i j
  | _, _ => false
  end.

(** [a == b]; a list or a dict takes an item that is the other item
    itself for equal to it. *)
Fixpoint py_eq (a b : pyval) {struct a} : bool :=
  match a with
  | PyNone => match b with PyNone => true | _ => false end
  | PyStr s => match b with PyStr t => String.eqb s t | _ => false end
  | PyList l =>
      match b with
      | PyList m =>
          (fix go (l m : list pyval) {struct l} : bool :=
             match l, m with
             | [], [] => true
             | x :: l', y :: m' => (identical x y || py_eq x y) && go l' m'
             | _, _ => false
             end) l m
      | _ => false
      end
  | PyDict d =>
      match b with
      | PyDict e =>
          (fix go (seen : list string) (d : list (string * pyval)) {struct d}
             : bool :=
             match d with
             | [] => true
             | (k, v) :: d' =>
                 (if existsb (String.eqb k) seen then true
                  else match assoc k e with
                       | Some w => identical v w || py_eq v w
                       | None => false
                       end)
                 && go (k :: seen) d'
             end) [] d
          && Nat.eqb (length (dict_keys d)) (length (dict_keys e))
      | _ => false
      end
  | PyBool _ | PyInt _ | PyFloat _ =>
      match py_number a, py_number b with
      | Some x, Some y => float_eqb x y
      | _, _ => false
      end
  end.

(** [a is b or a == b], the test a container makes on its items. *)
Definition py_same (a b : pyval) : bool := identical a b || py_eq a b.

(** [a < b] *)
Fixpoint py_lt (a b : pyval) {struct a} : result bool :=
  match a with
  | PyStr s => match b with PyStr t => Ok (String.ltb s t) | _ => Err TypeError end
  | PyList l =>
      match b with
      | PyList m =>
          (fix go (l m : list pyval) {struct l} : result bool :=
             match l, m with
             | [], [] => Ok false
             | [], _ :: _ => Ok true
             | _ :: _, [] => Ok false
             | x :: l', y :: m' => if py_same x y then go l' m' else py_lt x y
             end) l m
      | _ => Err TypeError
      end
  | PyBool _ | PyInt _ | PyFloat _ =>
      match py_number a, py_number b with
      | Some x, Some y => Ok (float_ltb x y)
      | _, _ => Err TypeError
      end
  | PyNone | PyDict _ => Err TypeError
  end.

(** [a < b] on 2-tuples: the first position where the two items are
    neither the same object nor equal decides. *)
Definition tuple_lt (a b : pyval * pyval) : result bool :=
  if negb (py_same (fst a) (fst b)) then py_lt (fst a) (fst b)
  else if negb (py_same (snd a) (snd b)) then py_lt (snd a) (snd b)
  else Ok false.

(** ** [sorted] and [list.sort]

    [list.sort] assumes no order of the keys: a key such as NaN, which
    is neither below nor equal to any other, makes the result depend on
    the very comparisons the algorithm makes.  On fewer than 64 elements
    these are: the longest run at the head of the list is found, a run
    being either ascending ([a0 <= a1 <= ...], read as: no element is
    below the one before it) or strictly descending; a descending run is
    reversed; then the other elements are inserted into the run one by
    one, each at the place a binary search finds. *)

Section ListSort.

Context {K A : Type}.
Variable lt : K -> K -> result bool.

(** How many elements of [l] go on with the run that ends in [prev]. *)
Fixpoint run_length (descending : bool) (prev : K) (l : list (K * A))
  : result nat :=
  match l with
  | [] => Ok 0%nat
  | x :: l' =>
      b <- lt (fst x) prev ;;
      if Bool.eqb b descending
      then (n <- run_length descending (fst x) l' ;; Ok (S n))
      else Ok 0%nat
  end.

(** The length of the run at the head of [l], and whether it descends. *)
Definition count_run (l : list (K * A)) : result (nat * bool) :=
  match l with
  | [] => Ok (0%nat, false)
  | [_] => Ok (1%nat, false)
  | a0 :: a1 :: rest =>
      descending <- lt (fst a1) (fst a0) ;;
      n <- run_length descending (fst a1) rest ;;
      Ok (S (S n), descending)
  end.

(** The binary search of [binarysort]: the place of [pivot] among
    [pre[l..r)]; [fuel] bounds the number of halvings, and [r - l] is
    enough. *)
Fixpoint bisect (fuel : nat) (pivot : K) (pre : list (K * A)) (l r : nat)
  : result nat :=
  match fuel with
  | O => Ok l
  | S fuel' =>
      if (l <? r)%nat
      then
        let p := (l + (r - l) / 2)%nat in
        match nth_error pre p with
        | Some y =>
            b <- lt pivot (fst y) ;;
            if b then bisect fuel' pivot pre l p
            else bisect fuel' pivot pre (S p) r
        | None => Ok l
        end
      else Ok l
  end.

Definition insert_at (i : nat) (x : K * A) (pre : list (K * A))
  : list (K * A) :=
  firstn i pre ++ x :: skipn i pre.

(** [binarysort]: the elements of [rest] inserted, in their order, into
    the sorted prefix [pre]. *)
Fixpoint binarysort (pre rest : list (K * A)) : result (list (K * A)) :=
  match rest with
  | [] => Ok pre
  | x :: rest' =>
      i <- bisect (length pre) (fst x) pre 0 (length pre) ;;
      binarysort (insert_at i x pre) rest'
  end.

(** [list.sort] when the whole list is made one run. *)
Definition one_run_sort (l : list (K * A)) : result (list (K * A)) :=
  match l with
  | [] | [_] => Ok l
  | _ :: _ :: _ =>
      '(n, descending) <- count_run l ;;
      let run := firstn n l in
      binarysort (if descending then rev run else run) (skipn n l)
  end.

End ListSort.

(** What [list.sort] promises when every comparison of two keys in [dom]
    answers [ltb]: a permutation of the list; no element below the one
    before it, when [ltb] is asymmetric; a list in which no element is
    below the one before it is returned as it is; and on keys that [ltb]
    orders totally, the elements of a class of equal keys keep their
    order. *)

Section SortContract.

Context {K A : Type}.
Variable ltb : K -> K -> bool.
Variable dom : K -> Prop.

Definition ascending (x y : K * A) : Prop := ltb (fst y) (fst x) = false.

Definition asymmetric : Prop :=
  forall a b, dom a -> dom b -> ltb a b = true -> ltb b a = false.

Definition negatively_transitive : Prop :=
  forall a b c, dom a -> dom b -> dom c ->
    ltb a b = false -> ltb b c = false -> ltb a c = false.

Definition flat (class : K -> bool) : Prop :=
  forall a b, dom a -> dom b -> class a = true -> class b = true ->
    ltb b a = false.

(** The elements of [l] go on with a run that ends in [prev]. *)
Fixpoint chain (descending : bool) (prev : K) (l : list (K * A)) : Prop :=
  match l with
  | [] => True
  | x :: l' => ltb (fst x) prev = descending /\ chain descending (fst x) l'
  end.

(** The place [i] of [pivot] in [pre]: [pivot] is not below the element
    before place [i], and is below the element at place [i]. *)
Definition left_of (pivot : K) (pre : list (K * A)) (i : nat) : Prop :=
  forall j y, i = S j -> nth_error pre j = Some y -> ltb pivot (fst y) = false.

Definition right_of (pivot : K) (pre : list (K * A)) (i : nat) : Prop :=
  forall y, nth_error pre i = Some y -> ltb pivot (fst y) = true.

Definition sort_contract (l s : list (K * A)) : Prop :=
  Permutation l s /\
  (asymmetric -> Sorted ascending s) /\
  (Sorted ascending l -> s = l) /\
  (asymmetric -> negatively_transitive ->
   forall class, flat class ->
     filter (fun x => class (fst x)) s = filter (fun x => class (fst x)) l).

End SortContract.

(** The merge phase of [list.sort], which runs on 64 elements or more. *)
Class MergePhase : Type := {
  merge_runs : forall {K A : Type},
    (K -> K -> result bool) -> list (K * A) -> result (list (K * A));
  merge_runs_contract :
    forall (K A : Type) (lt : K -> K -> result bool) (ltb : K -> K -> bool)
           (dom : K -> Prop) (l : list (K * A)),
      (forall a b, dom a -> dom b -> lt a b = Ok (ltb a b)) ->
      Forall (fun x => dom (fst x)) l ->
      exists s, merge_runs lt l = Ok s /\ sort_contract ltb dom l s
}.

Section Sorted.

Context {long_lists : MergePhase}.

Definition list_sort {K A : Type} (lt : K -> K -> result bool)
  (l : list (K * A)) : result (list (K * A)) :=
  if (length l <? 64)%nat then one_run_sort lt l else merge_runs lt l.

Definition sorted {K A : Type} (v : list A) (key : A -> result K)
  (lt : K -> K -> result bool) (reverse : bool) : result (list A) :=
  keys <- mapM key v ;;
  let kv := combine keys v in
  r <- (if reverse
        then (s <- list_sort lt (rev kv) ;; Ok (rev s))
        else list_sort lt kv) ;;
  Ok (map snd r).

End Sorted.

(** ** pydantic field validation

    What pydantic does with a keyword argument of a field annotated [str],
    [float] or [int]: the validated value, or [None] when it rejects the
    argument.  The library coerces some values of other types; that part
    is left open, and only the outcome on a value of the annotated type is
    fixed. *)

Class FieldCoercion : Type := {
  to_str : pyval -> option string;
  to_float : pyval -> option pyfloat;
  to_int : pyval -> option Z;
  to_str_str : forall s, to_str (PyStr s) = Some s;
  to_float_float : forall x, to_float (PyFloat x) = Some x;
  to_int_int : forall n, to_int (PyInt n) = Some n
}.

(** The coercion that accepts exactly the annotated type (and an [int]
    where a [float] is asked for). *)
Definition strict_to_str (v : pyval) : option string :=
  match v with PyStr s => Some s | _ => None end.

Definition strict_to_float (v : pyval) : option pyfloat :=
  match v with
  | PyFloat x => Some x
  | PyInt n => Some (Finite (inject_Z n))
  | _ => None
  end.

Definition strict_to_int (v : pyval) : option Z :=
  match v with PyInt n => Some n | _ => None end.

Definition strict_coercion : FieldCoercion := {|
  to_str := strict_to_str;
  to_float := strict_to_float;
  to_int := strict_to_int;
  to_str_str := fun _ => eq_refl;
  to_float_float := fun _ => eq_refl;
  to_int_int := fun _ => eq_refl
|}.

Definition validate {A : Type} (r : option A) : result A :=
  match r with
  | Some a => Ok a
  | None => Err ValidationError
  end.

(** ** The models *)

Record PredictionOutput : Type := {
  output : string;
  output_score : pyfloat
}.

Record PredictionDocument : Type := {
  index : string;
  document_id : string;
  document : string;
  span : option (list Z);
  url : string;
  source : string;
  document_score : pyfloat
}.

Record Prediction : Type := {
  prediction_score : pyfloat;
  prediction_output : PredictionOutput;
  prediction_documents : list PredictionDocument
}.

Record QueryOutput : Type := {
  predictions : list Prediction
}.

(** The argument of the ranking key: a [Prediction] instance or a plain
    value. *)
Inductive pyobj : Type :=
| OfPrediction (p : Prediction)
| OfValue (v : pyval).

Section Models.

Context {pydantic : FieldCoercion} {long_lists : MergePhase}.

(** A keyword argument of a field that has a default. *)
Definition field_default {A : Type} (kwargs : list (string * pyval))
  (name : string) (coerce : pyval -> option A) (default : A) : result A :=
  match assoc name kwargs with
  | Some v => validate (coerce v)
  | None => Ok default
  end.

(** A keyword argument of a required field. *)
Definition field_required {A : Type} (kwargs : list (string * pyval))
  (name : string) (coerce : pyval -> option A) : result A :=
  match assoc name kwargs with
  | Some v => validate (coerce v)
  | None => Err ValidationError
  end.

Fixpoint mapO {A B : Type} (f : A -> option B) (l : list A) : option (list B) :=
  match l with
  | [] => Some []
  | x :: l' =>
      match f x, mapO f l' with
      | Some y, Some ys => Some (y :: ys)
      | _, _ => None
      end
  end.

(** [Optional[List[int]]] *)
Definition to_optional_int_list (v : pyval) : option (option (list Z)) :=
  match v with
  | PyNone => Some None
  | PyList l =>
      match mapO to_int l with
      | Some ns => Some (Some ns)
      | None => None
      end
  | _ => None
  end.

(** [PredictionOutput(output=..., output_score=...)] *)
Definition PredictionOutput_init (output output_score : pyval)
  : result PredictionOutput :=
  o <- validate (to_str output) ;;
  s <- validate (to_float output_score) ;;
  Ok {| output := o; output_score := s |}.

(** [PredictionDocument] called with keyword arguments: a keyword that
    names no field is ignored, a field that gets no keyword takes its
    default. *)
Definition PredictionDocument_init (kwargs : list (string * pyval))
  : result PredictionDocument :=
  i <- field_default kwargs "index" to_str "" ;;
  id <- field_default kwargs "document_id" to_str "" ;;
  doc <- field_required kwargs "document" to_str ;;
  sp <- field_default kwargs "span" to_optional_int_list None ;;
  u <- field_default kwargs "url" to_str "" ;;
  src <- field_default kwargs "source" to_str "" ;;
  sc <- field_default kwargs "document_score" to_float (Finite 0) ;;
  Ok {| index := i; document_id := id; document := doc; span := sp;
        url := u; source := src; document_score := sc |}.

(** [Prediction(prediction_score=..., prediction_output=...,
    prediction_documents=...)], the last two being model instances. *)
Definition Prediction_init (prediction_score : pyval)
  (prediction_output : PredictionOutput)
  (prediction_documents : list PredictionDocument) : result Prediction :=
  s <- validate (to_float prediction_score) ;;
  Ok {| prediction_score := s;
        prediction_output := prediction_output;
        prediction_documents := prediction_documents |}.

(** ** Ranking *)

Definition sort_predictions_key (p : pyobj) : result (pyval * pyval) :=
  match p with
  | OfPrediction p =>
      let answer_score := PyFloat (prediction_score p) in
      let document_score :=
        match prediction_documents p with
        | d :: _ => PyFloat (document_score d)
        | [] => PyInt 1
        end in
      Ok (document_score, answer_score)
  | OfValue (PyDict _ as p) =>
      answer_score <- getitem_str p "prediction_score" ;;
      docs <- getitem_str p "prediction_documents" ;;
      document_score <-
        (if py_truthy docs
         then (d <- getitem_int docs 0 ;; py_get d "document_score" (PyInt 1))
         else Ok (PyInt 1)) ;;
      Ok (document_score, answer_score)
  | OfValue _ => Err TypeError
  end.

(** The validator of [predictions]; it runs on the validated field, a
    list of [Prediction] instances. *)
Definition sort_predictions (v : list Prediction) : result (list Prediction) :=
  sorted v (fun p => sort_predictions_key (OfPrediction p)) tuple_lt true.

(** [QueryOutput(predictions=...)] *)
Definition QueryOutput_init (predictions : list Prediction) : result QueryOutput :=
  v <- sort_predictions predictions ;;
  Ok {| predictions := v |}.

(** ** Context fan-out *)

Definition range (n : Z) : list Z := map Z.of_nat (seq 0 (Z.to_nat n)).

Definition _prediction_documents_iter_from_context (iter_len : Z)
  (context : pyval) : result (list (list PredictionDocument)) :=
  match context with
  | PyNone => Ok (map (fun _ => []) (range iter_len))
  | PyStr _ =>
      mapM (fun _ => d <- PredictionDocument_init [("document", context)] ;;
                     Ok [d])
           (range iter_len)
  | PyList l =>
      if negb (Z.of_nat (length l) =? iter_len) then Err ValueError
      else mapM (fun c => d <- PredictionDocument_init [("document", c)] ;;
                          Ok [d])
                l
  | _ => Err TypeError
  end.

(** ** Sequence classification *)

Fixpoint zip3 {A B C : Type} (la : list A) (lb : list B) (lc : list C)
  : list (A * B * C) :=
  match la, lb, lc with
  | a :: la', b :: lb', c :: lc' => (a, b, c) :: zip3 la' lb' lc'
  | _, _, _ => []
  end.

(** Lines 122-130: the prediction of one zipped triple. *)
Definition sequence_prediction (t : pyval * string * list PredictionDocument)
  : result Prediction :=
  let '(prediction_score, answer, prediction_documents) := t in
  prediction_output <- PredictionOutput_init (PyStr answer) prediction_score ;;
  Prediction_init prediction_score prediction_output prediction_documents.

Definition from_sequence_classification (answers : list string)
  (model_api_output context : pyval) : result QueryOutput :=
  prediction_documents_iter <-
    _prediction_documents_iter_from_context (Z.of_nat (length answers)) context ;;
  model_outputs <- getitem_str model_api_output "model_outputs" ;;
  logits <- getitem_str model_outputs "logits" ;;
  predictions_scores <- getitem_int logits 0 ;;
  scores <- py_iter predictions_scores ;;
  predictions <-
    mapM sequence_prediction (zip3 scores answers prediction_documents_iter) ;;
  QueryOutput_init predictions.

(** ** Question answering *)

Definition is_none (v : pyval) : bool :=
  match v with PyNone => true | _ => false end.

(** Lines 147-153: the document and the score of passage [i]. *)
Definition resolve_context (i : nat) (context context_score : pyval)
  : result (pyval * pyval) :=
  match context with
  | PyList _ =>
      match context_score with
      | PyList _ =>
          context_doc_i <- getitem_int context (Z.of_nat i) ;;
          context_score_i <- getitem_int context_score (Z.of_nat i) ;;
          Ok (context_doc_i, context_score_i)
      | _ => Err AssertionError
      end
  | _ =>
      Ok (if is_none context then PyStr "" else context,
          if is_none context then PyInt 1 else context_score)
  end.

(** Lines 156-183: the prediction of one answer record. *)
Definition answer_prediction (context_doc_i context_score_i answer : pyval)
  : result Prediction :=
  answer_str <- getitem_str answer "answer" ;;
  let answer_str :=
    if negb (py_truthy answer_str) then PyStr "No answer found."
    else answer_str in
  answer_score <- getitem_str answer "score" ;;
  let prediction_score := answer_score in
  prediction_output <- PredictionOutput_init answer_str answer_score ;;
  prediction_documents <-
    (if py_truthy context_doc_i
     then (start <- getitem_str answer "start" ;;
           end_ <- getitem_str answer "end" ;;
           d <- PredictionDocument_init
                  [("document", context_doc_i);
                   ("span", PyList [start; end_]);
                   ("score", context_score_i)] ;;
           Ok [d])
     else Ok []) ;;
  Prediction_init prediction_score prediction_output prediction_documents.

Definition enumerate {A : Type} (l : list A) : list (nat * A) :=
  combine (seq 0 (length l)) l.

(** Lines 146-183: the predictions of passage [i]. *)
Definition passage_predictions (context context_score : pyval)
  (ia : nat * pyval) : result (list Prediction) :=
  '(context_doc_i, context_score_i) <-
     resolve_context (fst ia) context context_score ;;
  rows <- py_iter (snd ia) ;;
  mapM (answer_prediction context_doc_i context_score_i) rows.

Definition from_question_answering (model_api_output context context_score : pyval)
  : result QueryOutput :=
  answers <- getitem_str model_api_output "answers" ;;
  passages <- py_iter answers ;;
  predictions <- mapM (passage_predictions context context_score)
                      (enumerate passages) ;;
  QueryOutput_init (concat predictions).

End Models.


(** * Vocabulary of the properties *)

(** ** Ranking keys *)

Local Open Scope Q_scope.

(** [a == b], [a < b] and [a <= b] on floats, as propositions: none
    holds of NaN. *)
Definition float_eq (a b : pyfloat) : Prop :=
  match a, b with
  | Finite x, Finite y => x == y
  | _, _ => False
  end.

Definition float_lt (a b : pyfloat) : Prop :=
  match a, b with
  | Finite x, Finite y => x < y
  | _, _ => False
  end.

Definition float_le (a b : pyfloat) : Prop :=
  match a, b with
  | Finite x, Finite y => x <= y
  | _, _ => False
  end.

Definition is_finite (a : pyfloat) : Prop :=
  match a with
  | Finite _ => True
  | NaN _ => False
  end.

(** The key as the spec has it: the score of the first document, or 1,
    then the score of the prediction. *)
Definition rank_key (p : Prediction) : pyfloat * pyfloat :=
  (match prediction_documents p with
   | d :: _ => document_score d
   | [] => Finite 1
   end,
   prediction_score p).

(** [a < b] and [a >= b] on pairs of floats: the first position where
    the two differ decides. *)
Definition key_lt (a b : pyfloat * pyfloat) : Prop :=
  float_lt (fst a) (fst b) \/ (float_eq (fst a) (fst b) /\ float_lt (snd a) (snd b)).

Definition key_ge (a b : pyfloat * pyfloat) : Prop :=
  float_lt (fst b) (fst a) \/ (float_eq (fst a) (fst b) /\ float_le (snd b) (snd a)).

(** What [a < b] answers on two tuples of floats. *)
Definition lex_ltb (a b : pyfloat * pyfloat) : bool :=
  if negb (float_same (fst a) (fst b)) then float_ltb (fst a) (fst b)
  else if negb (float_same (snd a) (snd b)) then float_ltb (snd a) (snd b)
  else false.

(** A key without NaN, and a prediction whose key has none. *)
Definition finite_key (k : pyfloat * pyfloat) : Prop :=
  is_finite (fst k) /\ is_finite (snd k).

Definition no_nan (p : Prediction) : Prop := finite_key (rank_key p).

(** A key whose two components are numbers. *)
Definition num_key (k : pyval * pyval) : option (pyfloat * pyfloat) :=
  match py_number (fst k), py_number (snd k) with
  | Some x, Some y => Some (x, y)
  | _, _ => None
  end.

Definition num_key_ltb (a b : pyval * pyval) : bool :=
  match num_key a, num_key b with
  | Some ka, Some kb => lex_ltb ka kb
  | _, _ => false
  end.

Local Close Scope Q_scope.

(** The key of a [Prediction] instance, as the key function builds it. *)
Definition instance_key (p : Prediction) : pyval * pyval :=
  (match prediction_documents p with
   | d :: _ => PyFloat (document_score d)
   | [] => PyInt 1
   end,
   PyFloat (prediction_score p)).

(** [p1] may stand before [p2] in descending rank order. *)
Definition ranks_before (p1 p2 : Prediction) : Prop :=
  key_ge (rank_key p1) (rank_key p2).

Definition ranked (l : list Prediction) : Prop :=
  StronglySorted ranks_before l.

(** ** Documents, predictions and payloads *)

(** The document that wraps a text and nothing else. *)
Definition plain_document (text : string) : PredictionDocument :=
  {| index := ""; document_id := ""; document := text; span := None;
     url := ""; source := ""; document_score := 0 |}.

(** The document the adapter attaches to an answer. *)
Definition span_document (text : string) (start end_ : Z) : PredictionDocument :=
  {| index := ""; document_id := ""; document := text;
     span := Some [start; end_]; url := ""; source := "";
     document_score := 0 |}.

(** The documents every answer gets from a shared context: none
    without a context, the one document of the text with one. *)
Definition shared_documents (context : pyval) : list PredictionDocument :=
  match context with
  | PyStr text => [plain_document text]
  | _ => []
  end.

(** The text shown for an answer. *)
Definition answer_text (answer : string) : string :=
  if String.eqb answer "" then "No answer found." else answer.

(** The prediction the sequence-classification loop builds from one
    (score, answer, documents) triple. *)
Definition sc_prediction (t : pyfloat * string * list PredictionDocument)
  : Prediction :=
  let '(score, answer, documents) := t in
  {| prediction_score := score;
     prediction_output := {| output := answer; output_score := score |};
     prediction_documents := documents |}.

(** The path [["model_outputs"]["logits"][0]] of the payload. *)
Definition logits_row (model_api_output : pyval) : result pyval :=
  model_outputs <- getitem_str model_api_output "model_outputs" ;;
  logits <- getitem_str model_outputs "logits" ;;
  getitem_int logits 0.

(** [record] is a candidate answer of passage [i] of the payload, and
    [doc], [score] are the context document and score resolved for [i]. *)
Definition qa_record (model_api_output context context_score : pyval)
  (i : nat) (doc score record : pyval) : Prop :=
  exists answers passages passage rows,
    getitem_str model_api_output "answers" = Ok answers /\
    py_iter answers = Ok passages /\
    nth_error passages i = Some passage /\
    resolve_context i context context_score = Ok (doc, score) /\
    py_iter passage = Ok rows /\
    In record rows.

(** The equivalent mapping of a model instance: what pydantic's [dict()]
    returns for it. *)
Definition PredictionDocument_dict (d : PredictionDocument) : pyval :=
  PyDict [("index", PyStr (index d));
          ("document_id", PyStr (document_id d));
          ("document", PyStr (document d));
          ("span", match span d with
                   | Some l => PyList (map PyInt l)
                   | None => PyNone
                   end);
          ("url", PyStr (url d));
          ("source", PyStr (source d));
          ("document_score", PyFloat (document_score d))].

Definition PredictionOutput_dict (o : PredictionOutput) : pyval :=
  PyDict [("output", PyStr (output o));
          ("output_score", PyFloat (output_score o))].

Definition Prediction_dict (p : Prediction) : pyval :=
  PyDict [("prediction_score", PyFloat (prediction_score p));
          ("prediction_output", PredictionOutput_dict (prediction_output p));
          ("prediction_documents",
           PyList (map PredictionDocument_dict (prediction_documents p)))].

Definition is_dict (v : pyval) : bool :=
  match v with PyDict _ => true | _ => false end.

Definition is_list (v : pyval) : bool :=
  match v with PyList _ => true | _ => false end.

(** ** Every way to obtain a [QueryOutput] *)

Section Constructed.

Context {pydantic : FieldCoercion} {long_lists : MergePhase}.

Inductive constructed : QueryOutput -> Prop :=
| constructed_direct (v : list Prediction) (q : QueryOutput) :
    QueryOutput_init v = Ok q -> constructed q
| constructed_sequence_classification (answers : list string)
    (model_api_output context : pyval) (q : QueryOutput) :
    from_sequence_classification answers model_api_output context = Ok q ->
    constructed q
| constructed_question_answering
    (model_api_output context context_score : pyval) (q : QueryOutput) :
    from_question_answering model_api_output context context_score = Ok q ->
    constructed q.

End Constructed.

(** ** Scenarios

    The scenarios of the spec and a few more, run with the strict
    coercion. *)

Module Scenario.

Definition record (answer : string) (score : pyfloat) (start end_ : Z) : pyval :=
  PyDict [("answer", PyStr answer); ("score", PyFloat score);
          ("start", PyInt start); ("end", PyInt end_)].

Definition qa_payload (passages : list (list pyval)) : pyval :=
  PyDict [("answers", PyList (map PyList passages))].

Definition sc_payload (scores : list pyfloat) : pyval :=
  PyDict [("model_outputs", PyDict [("logits", PyList [PyList (map PyFloat scores)])])].

Definition bare (text : string) (score : pyfloat) : Prediction :=
  {| prediction_score := score;
     prediction_output := {| output := text; output_score := score |};
     prediction_documents := [] |}.

Definition backed (text : string) (score : pyfloat) (d : PredictionDocument)
  : Prediction :=
  {| prediction_score := score;
     prediction_output := {| output := text; output_score := score |};
     prediction_documents := [d] |}.

(** The floats of a list of numbers. *)
Definition floats (l : list Q) : list pyfloat := map Finite l.

(** A document with a text and a score. *)
Definition scored_document (text : string) (score : pyfloat)
  : PredictionDocument :=
  {| index := ""; document_id := ""; document := text; span := None;
     url := ""; source := ""; document_score := score |}.

End Scenario.

Import Scenario.

(** ** Typed payloads and orders *)

(** Two keys that [==] cannot tell apart. *)
Definition key_eqb (a b : pyfloat * pyfloat) : bool :=
  float_eqb (fst a) (fst b) && float_eqb (snd a) (snd b).

(** [p1] may stand before [p2] in descending order of the prediction
    score alone. *)
Definition by_score (p1 p2 : Prediction) : Prop :=
  float_le (prediction_score p2) (prediction_score p1).

(** An answer record given by its four entries: answer text, score,
    start and end. *)
Definition qa_row : Type := string * pyfloat * Z * Z.

Definition row (answer : string) (score : pyfloat) (start end_ : Z) : qa_row :=
  (answer, score, start, end_).

Definition encode_row (r : qa_row) : pyval :=
  let '(answer, score, start, end_) := r in record answer score start end_.

Definition typed_payload (passages : list (list qa_row)) : pyval :=
  qa_payload (map (map encode_row) passages).

(** The prediction of a typed record under the context text [c]. *)
Definition qa_prediction (c : string) (r : qa_row) : Prediction :=
  let '(answer, score, start, end_) := r in
  {| prediction_score := score;
     prediction_output := {| output := answer_text answer; output_score := score |};
     prediction_documents :=
       if String.eqb c "" then [] else [span_document c start end_] |}.

(** The text a shared [context] argument stands for. *)
Definition shared_text (context : pyval) : option string :=
  match context with
  | PyNone => Some ""
  | PyStr c => Some c
  | _ => None
  end.

(** The predictions of passages paired with their own context texts. *)
Definition paired_predictions (texts : list string) (passages : list (list qa_row))
  : list (list Prediction) :=
  map (fun cr => map (qa_prediction (fst cr)) (snd cr)) (combine texts passages).

(** The keys of the validator are pairs of numbers. *)
Definition numeric (k : pyval * pyval) : Prop := exists q, num_key k = Some q.

(** A pair of numbers none of which is NaN. *)
Definition finite_numeric (k : pyval * pyval) : Prop :=
  exists q, num_key k = Some q /\ finite_key q.

(** A pair of the sort holds a prediction under its own key. *)
Definition own_key (x : (pyval * pyval) * Prediction) : Prop :=
  fst x = instance_key (snd x).

(** No prediction is below the one that follows it. *)
Definition never_rising (l : list Prediction) : Prop :=
  Sorted (fun p1 p2 => lex_ltb (rank_key p1) (rank_key p2) = false) l.

(** The predictions paired with their keys. *)
Definition keyed_predictions (v : list Prediction)
  : list ((pyval * pyval) * Prediction) :=
  map (fun p => (instance_key p, p)) v.

(** * Properties *)

(** ** The result monad *)

Lemma bind_ok_inv {A B : Type} (c : result A) (k : A -> result B) (b : B) :
  bind c k = Ok b -> exists a, c = Ok a /\ k a = Ok b.
Proof.
  destruct c as [a | e]; simpl; intros H.
  - exists a. split; [reflexivity | exact H].
  - discriminate H.
Qed.

Ltac inv_bind H :=
  let a := fresh "a" in
  let Ha := fresh "Ha" in
  apply bind_ok_inv in H; destruct H as [a [Ha H]].

Lemma mapM_ok_Forall2 {A B : Type} (f : A -> result B) (l : list A) (r : list B) :
  mapM f l = Ok r -> Forall2 (fun x y => f x = Ok y) l r.
Proof.
  revert r. induction l as [| x l IH]; simpl; intros r H.
  - injection H as <-. constructor.
  - inv_bind H. inv_bind H. injection H as <-.
    constructor; [assumption | apply IH; assumption].
Qed.

Lemma mapM_pure {A B : Type} (f : A -> result B) (g : A -> B) (l : list A) :
  (forall x, In x l -> f x = Ok (g x)) -> mapM f l = Ok (map g l).
Proof.
  induction l as [| x l IH]; simpl; intros H.
  - reflexivity.
  - rewrite (H x (or_introl eq_refl)). simpl.
    rewrite IH by (intros y Hy; apply H; right; exact Hy).
    reflexivity.
Qed.

Lemma mapM_length {A B : Type} (f : A -> result B) (l : list A) (r : list B) :
  mapM f l = Ok r -> length r = length l.
Proof.
  intros H. apply mapM_ok_Forall2 in H.
  induction H; simpl; congruence.
Qed.

(** One failing element makes the whole traversal fail. *)
Lemma mapM_err {A B : Type} (f : A -> result B) (l : list A) (x : A) (e : exn) :
  In x l -> f x = Err e -> exists e', mapM f l = Err e'.
Proof.
  induction l as [| y l IH]; simpl; intros Hin Hx.
  - contradiction.
  - destruct Hin as [-> | Hin].
    + rewrite Hx. simpl. eexists. reflexivity.
    + destruct (f y) as [b | e0]; simpl.
      * destruct (IH Hin Hx) as [e' ->]. simpl. eexists. reflexivity.
      * eexists. reflexivity.
Qed.

(** ** Sorted lists *)

Section SortedFacts.

Variable A : Type.

Lemma StronglySorted_app (R : A -> A -> Prop) (l1 l2 : list A) :
  StronglySorted R l1 -> StronglySorted R l2 ->
  (forall x y, In x l1 -> In y l2 -> R x y) ->
  StronglySorted R (l1 ++ l2).
Proof.
  induction l1 as [| a l1 IH]; simpl; intros H1 H2 H12.
  - exact H2.
  - inversion H1 as [| ? ? Hs Hf]; subst.
    constructor.
    + apply IH; [assumption | assumption |].
      intros x y Hx Hy. apply H12; [right |]; assumption.
    + apply Forall_app. split; [assumption |].
      apply Forall_forall. intros y Hy. apply H12; [left; reflexivity | exact Hy].
Qed.

Lemma StronglySorted_rev (R : A -> A -> Prop) (l : list A) :
  StronglySorted R l -> StronglySorted (fun x y => R y x) (rev l).
Proof.
  induction 1 as [| a l _ IH Hf]; simpl.
  - constructor.
  - apply StronglySorted_app.
    + exact IH.
    + repeat constructor.
    + intros x y Hx [<- | []].
      apply in_rev in Hx. rewrite Forall_forall in Hf. apply Hf, Hx.
Qed.

(** In a strongly sorted list the relation holds between any element and
    any later one. *)
Lemma StronglySorted_split (R : A -> A -> Prop) (l1 l2 : list A) (x y : A) :
  StronglySorted R (l1 ++ x :: l2) -> In y l2 -> R x y.
Proof.
  induction l1 as [| a l1 IH]; simpl; intros H Hy.
  - inversion H as [| ? ? _ Hf]; subst.
    rewrite Forall_forall in Hf. apply Hf, Hy.
  - inversion H; subst. apply IH; assumption.
Qed.

End SortedFacts.

Lemma StronglySorted_map_snd {K A : Type} (R : A -> A -> Prop) (l : list (K * A)) :
  StronglySorted (fun x y => R (snd x) (snd y)) l ->
  StronglySorted R (map snd l).
Proof.
  induction 1 as [| a l _ IH Hf]; simpl; constructor.
  - exact IH.
  - rewrite Forall_forall in *. intros y Hy.
    apply in_map_iff in Hy. destruct Hy as [z [<- Hz]]. apply Hf, Hz.
Qed.

Lemma StronglySorted_weaken {A : Type} (R R' : A -> A -> Prop) (P : A -> Prop)
  (l : list A) :
  (forall x y, P x -> P y -> R x y -> R' x y) ->
  Forall P l -> StronglySorted R l -> StronglySorted R' l.
Proof.
  intros HRR HP Hs. induction Hs as [| a l _ IH Hf].
  - constructor.
  - inversion HP as [| ? ? Pa Pl]; subst.
    constructor; [apply IH; assumption |].
    rewrite Forall_forall in *. intros y Hy.
    apply HRR; [exact Pa | apply Pl, Hy | apply Hf, Hy].
Qed.

Local Open Scope list_scope.

(** ** Lists in which no element is below the one before it *)

Lemma Sorted_insert_middle {A : Type} (R : A -> A -> Prop) (l1 l2 : list A)
  (x : A) :
  Sorted R (l1 ++ l2)%list ->
  (forall l0 y, l1 = (l0 ++ [y])%list -> R y x) ->
  (forall y l0, l2 = y :: l0 -> R x y) ->
  Sorted R (l1 ++ x :: l2)%list.
Proof.
  induction l1 as [| a l1 IH]; simpl; intros Hs Hl Hr.
  - constructor; [exact Hs |].
    destruct l2 as [| y l0]; constructor. apply (Hr y l0 eq_refl).
  - inversion Hs as [| ? ? Hs' Hhd]; subst.
    constructor.
    + apply IH; [exact Hs' | | exact Hr].
      intros l0 y ->. apply (Hl (a :: l0) y). reflexivity.
    + destruct l1 as [| b l1]; simpl in *.
      * constructor. apply (Hl [] a). reflexivity.
      * inversion Hhd; subst. constructor. assumption.
Qed.

Lemma Sorted_rev {A : Type} (R : A -> A -> Prop) (l : list A) :
  Sorted R l -> Sorted (fun x y => R y x) (rev l).
Proof.
  induction 1 as [| a l _ IH Hhd]; simpl.
  - constructor.
  - rewrite <- (app_nil_r (rev l)) in IH.
    apply (Sorted_insert_middle _ (rev l) [] a IH).
    + intros l0 y Hrev.
      assert (Hl : l = y :: rev l0).
      { rewrite <- (rev_involutive l), Hrev, rev_app_distr. reflexivity. }
      subst l. inversion Hhd; subst. assumption.
    + intros y l0 H. discriminate H.
Qed.

Lemma Sorted_weaken {A : Type} (R R' : A -> A -> Prop) (P : A -> Prop)
  (l : list A) :
  (forall x y, P x -> P y -> R x y -> R' x y) ->
  Forall P l -> Sorted R l -> Sorted R' l.
Proof.
  intros HRR HP Hs. induction Hs as [| a l _ IH Hhd].
  - constructor.
  - inversion HP as [| ? ? Pa Pl]; subst.
    constructor; [apply IH, Pl |].
    destruct Hhd as [| b l Hab]; constructor.
    inversion Pl; subst. apply HRR; assumption.
Qed.

(** With a relation that is transitive on the elements, such a list is
    strongly sorted. *)
Lemma Sorted_StronglySorted_on {A : Type} (R : A -> A -> Prop) (P : A -> Prop)
  (l : list A) :
  (forall x y z, P x -> P y -> P z -> R x y -> R y z -> R x z) ->
  Forall P l -> Sorted R l -> StronglySorted R l.
Proof.
  intros Htrans HP Hs. induction Hs as [| a l _ IH Hhd].
  - constructor.
  - inversion HP as [| ? ? Pa Pl]; subst.
    specialize (IH Pl).
    constructor; [exact IH |].
    destruct Hhd as [| b l Hab]; [constructor |].
    inversion IH as [| ? ? _ Hb]; subst.
    inversion Pl as [| ? ? Pb Pl']; subst.
    constructor; [exact Hab |].
    rewrite Forall_forall in *. intros z Hz.
    apply (Htrans a b z); auto.
Qed.

Lemma StronglySorted_app_r {A : Type} (R : A -> A -> Prop) (l1 l2 : list A) :
  StronglySorted R (l1 ++ l2)%list -> StronglySorted R l2.
Proof.
  induction l1 as [| a l1 IH]; simpl; intros H; [exact H |].
  inversion H; subst. apply IH. assumption.
Qed.

Lemma skipn_cons_nth_error {A : Type} (l l0 : list A) (i : nat) (y : A) :
  skipn i l = y :: l0 -> nth_error l i = Some y.
Proof.
  revert l. induction i as [| i IH]; intros l H; destruct l as [| a l];
    try discriminate H.
  - injection H as -> _. reflexivity.
  - simpl in *. apply IH, H.
Qed.

Lemma firstn_snoc_nth_error {A : Type} (l l0 : list A) (i : nat) (y : A) :
  (i <= length l)%nat -> firstn i l = (l0 ++ [y])%list ->
  exists j, i = S j /\ nth_error l j = Some y.
Proof.
  intros Hi H.
  assert (Hlen : i = S (length l0)).
  { apply (f_equal (@length A)) in H.
    rewrite length_firstn, length_app in H. simpl in H. lia. }
  exists (length l0). split; [exact Hlen |].
  rewrite <- (firstn_skipn i l), H, <- app_assoc.
  rewrite nth_error_app2 by lia. rewrite Nat.sub_diag. reflexivity.
Qed.

Lemma rev_short {A : Type} (l : list A) : (length l <= 1)%nat -> rev l = l.
Proof.
  destruct l as [| a [| b l]]; simpl; intros H; try reflexivity. lia.
Qed.


(** ** [list.sort] keeps its contract *)

Section OneRunSort.

Context {K A : Type}.
Variable lt : K -> K -> result bool.
Variable ltb : K -> K -> bool.
Variable dom : K -> Prop.

Hypothesis lt_ltb : forall a b, dom a -> dom b -> lt a b = Ok (ltb a b).

Let keyed (x : K * A) : Prop := dom (fst x).
Let asc : K * A -> K * A -> Prop := ascending ltb.

Lemma run_length_spec (descending : bool) (prev : K) (l : list (K * A)) :
  dom prev -> Forall keyed l ->
  exists n, run_length lt descending prev l = Ok n /\
            (n <= length l)%nat /\ chain ltb descending prev (firstn n l).
Proof.
  revert prev. induction l as [| x l IH]; intros prev Hp Hl; simpl.
  - exists 0%nat. repeat split. lia.
  - inversion Hl as [| ? ? Hx Hl']; subst.
    rewrite (lt_ltb _ _ Hx Hp). simpl.
    destruct (Bool.eqb (ltb (fst x) prev) descending) eqn:E.
    + destruct (IH (fst x) Hx Hl') as [n [-> [Hn Hc]]]. simpl.
      exists (S n). split; [reflexivity | split; [lia |]].
      simpl. split; [apply Bool.eqb_prop, E | exact Hc].
    + exists 0%nat. repeat split. lia.
Qed.

Lemma run_length_sorted (x : K * A) (l : list (K * A)) :
  Forall keyed (x :: l) -> Sorted asc (x :: l) ->
  run_length lt false (fst x) l = Ok (length l).
Proof.
  revert x. induction l as [| y l IH]; intros x Hk Hs; simpl.
  - reflexivity.
  - inversion Hk as [| ? ? Hx Hl]; subst.
    inversion Hl as [| ? ? Hy _]; subst.
    inversion Hs as [| ? ? Hs' Hhd]; subst.
    inversion Hhd as [| ? ? Hxy]; subst.
    rewrite (lt_ltb _ _ Hy Hx). unfold asc, ascending in Hxy. rewrite Hxy.
    simpl. rewrite (IH y Hl Hs'). reflexivity.
Qed.

Lemma chain_ascending (x : K * A) (l : list (K * A)) :
  chain ltb false (fst x) l -> Sorted asc (x :: l).
Proof.
  revert x. induction l as [| y l IH]; intros x H.
  - repeat constructor.
  - destruct H as [Hxy Hc]. constructor; [apply IH, Hc |].
    constructor. exact Hxy.
Qed.

Lemma chain_descending (x : K * A) (l : list (K * A)) :
  chain ltb true (fst x) l ->
  Sorted (fun a b => ltb (fst b) (fst a) = true) (x :: l).
Proof.
  revert x. induction l as [| y l IH]; intros x H.
  - repeat constructor.
  - destruct H as [Hxy Hc]. constructor; [apply IH, Hc |].
    constructor. exact Hxy.
Qed.

(** *** The binary search *)

Section Bisect.

Variable pivot : K.
Variable pre : list (K * A).

Hypothesis pivot_dom : dom pivot.
Hypothesis pre_keyed : Forall keyed pre.

Lemma bisect_spec (fuel l r : nat) :
  (l <= r)%nat -> (r <= length pre)%nat -> (r - l <= fuel)%nat ->
  left_of ltb pivot pre l -> right_of ltb pivot pre r ->
  exists i, bisect lt fuel pivot pre l r = Ok i /\
            (i <= length pre)%nat /\ left_of ltb pivot pre i /\ right_of ltb pivot pre i.
Proof.
  revert l r. induction fuel as [| fuel IH]; intros l r Hlr Hr Hfuel Hleft Hright.
  - simpl. exists l. assert (l = r) by lia. subst r.
    repeat split; assumption.
  - cbn [bisect]. destruct (l <? r)%nat eqn:E.
    + apply Nat.ltb_lt in E.
      set (p := (l + (r - l) / 2)%nat).
      assert (Hp : (l <= p /\ p < r)%nat).
      { unfold p. split; [lia |].
        assert ((r - l) / 2 < r - l)%nat by (apply Nat.div_lt; lia). lia. }
      destruct (nth_error pre p) as [y |] eqn:Hy;
        [| apply nth_error_None in Hy; lia].
      assert (Hdy : dom (fst y)).
      { rewrite Forall_forall in pre_keyed.
        apply pre_keyed. eapply nth_error_In, Hy. }
      rewrite (lt_ltb _ _ pivot_dom Hdy). cbn [bind].
      destruct (ltb pivot (fst y)) eqn:Hcmp.
      * apply IH; try lia; [exact Hleft |].
        intros y' Hy'. rewrite Hy in Hy'. injection Hy' as <-. exact Hcmp.
      * apply IH; try lia; [| exact Hright].
        intros j y' Hj Hy'. injection Hj as <-.
        rewrite Hy in Hy'. injection Hy' as <-. exact Hcmp.
    + apply Nat.ltb_ge in E. assert (l = r) by lia. subst r.
      exists l. repeat split; assumption.
Qed.

Lemma bisect_place :
  exists i, bisect lt (length pre) pivot pre 0 (length pre) = Ok i /\
            (i <= length pre)%nat /\ left_of ltb pivot pre i /\ right_of ltb pivot pre i.
Proof.
  apply bisect_spec; try lia.
  - intros j y Hj. discriminate Hj.
  - intros y Hy.
    assert (nth_error pre (length pre) = None) by (apply nth_error_None; lia).
    congruence.
Qed.

End Bisect.

(** *** Inserting at the place found *)

Lemma insert_at_perm (i : nat) (x : K * A) (pre : list (K * A)) :
  Permutation (pre ++ [x]) (insert_at i x pre).
Proof.
  unfold insert_at.
  rewrite <- (firstn_skipn i pre) at 1. rewrite <- app_assoc.
  apply Permutation_app_head. simpl.
  apply Permutation_sym, Permutation_cons_append.
Qed.

Lemma insert_at_sorted (i : nat) (x : K * A) (pre : list (K * A)) :
  asymmetric ltb dom -> keyed x -> Forall keyed pre ->
  (i <= length pre)%nat -> left_of ltb (fst x) pre i -> right_of ltb (fst x) pre i ->
  Sorted asc pre -> Sorted asc (insert_at i x pre).
Proof.
  intros Hasym Hx Hpre Hi Hleft Hright Hs. unfold insert_at.
  apply Sorted_insert_middle.
  - rewrite firstn_skipn. exact Hs.
  - intros l0 y Hl0.
    destruct (firstn_snoc_nth_error _ _ _ _ Hi Hl0) as [j [Hj Hy]].
    apply (Hleft j y Hj Hy).
  - intros y l0 Hl0.
    pose proof (skipn_cons_nth_error _ _ _ _ Hl0) as Hy.
    unfold asc, ascending. apply Hasym; [exact Hx | | apply (Hright y Hy)].
    rewrite Forall_forall in Hpre. apply Hpre. eapply nth_error_In, Hy.
Qed.

Lemma asc_transitive :
  negatively_transitive ltb dom ->
  forall x y z, keyed x -> keyed y -> keyed z -> asc x y -> asc y z -> asc x z.
Proof.
  intros Hnt x y z Hx Hy Hz Hxy Hyz. unfold asc, ascending in *.
  apply (Hnt (fst z) (fst y) (fst x)); assumption.
Qed.

Lemma insert_at_filter (class : K -> bool) (i : nat) (x : K * A)
  (pre : list (K * A)) :
  negatively_transitive ltb dom -> flat ltb dom class ->
  keyed x -> Forall keyed pre ->
  right_of ltb (fst x) pre i -> Sorted asc pre ->
  filter (fun y => class (fst y)) (insert_at i x pre)
  = filter (fun y => class (fst y)) (pre ++ [x]).
Proof.
  intros Hnt Hflat Hx Hpre Hright Hs.
  pose proof (Sorted_StronglySorted_on asc keyed pre (asc_transitive Hnt) Hpre Hs)
    as Hss.
  unfold insert_at.
  pose proof (firstn_skipn i pre) as Hsplit.
  remember (firstn i pre) as l1 eqn:Hl1. remember (skipn i pre) as l2 eqn:Hl2.
  rewrite <- Hsplit. rewrite !filter_app. simpl. rewrite <- app_assoc. f_equal.
  subst l1 l2. clear Hsplit.
  destruct (class (fst x)) eqn:Cx; simpl; [| rewrite app_nil_r; reflexivity].
  assert (Hnone : filter (fun y => class (fst y)) (skipn i pre) = []).
  { rewrite <- (firstn_skipn i pre) in Hss, Hpre.
    apply StronglySorted_app_r in Hss.
    apply Forall_app in Hpre. destruct Hpre as [_ Hpre].
    destruct (skipn i pre) as [| y l0] eqn:Hsk; [reflexivity |].
    pose proof (Hright y (skipn_cons_nth_error _ _ _ _ Hsk)) as Hy.
    inversion Hss as [| ? ? _ Hall]; subst.
    inversion Hpre as [| ? ? Hdy Hpre']; subst.
    assert (Hbelow : forall z, In z (y :: l0) -> ltb (fst x) (fst z) = true).
    { intros z [<- | Hz]; [exact Hy |].
      destruct (ltb (fst x) (fst z)) eqn:Hxz; [reflexivity |].
      rewrite Forall_forall in Hall, Hpre'.
      pose proof (Hall z Hz) as Hyz. unfold asc, ascending in Hyz.
      rewrite (Hnt (fst x) (fst z) (fst y) Hx (Hpre' z Hz) Hdy Hxz Hyz) in Hy.
      discriminate Hy. }
    assert (Hk : Forall keyed (y :: l0)) by (constructor; assumption).
    clear - Hbelow Hflat Hx Cx Hk.
    induction (y :: l0) as [| z l IH]; [reflexivity |].
    inversion Hk as [| ? ? Hz Hk']; subst.
    simpl. destruct (class (fst z)) eqn:Cz.
    - pose proof (Hbelow z (or_introl eq_refl)) as Hb.
      rewrite (Hflat (fst z) (fst x) Hz Hx Cz Cx) in Hb. discriminate Hb.
    - apply IH; [| exact Hk'].
      intros w Hw. apply Hbelow. right. exact Hw. }
  rewrite Hnone. reflexivity.
Qed.

(** *** [binarysort] *)

Lemma binarysort_spec (rest pre : list (K * A)) :
  Forall keyed pre -> Forall keyed rest ->
  exists s,
    binarysort lt pre rest = Ok s /\
    Permutation (pre ++ rest) s /\
    (asymmetric ltb dom -> Sorted asc pre ->
     Sorted asc s /\
     (negatively_transitive ltb dom ->
      forall class, flat ltb dom class ->
        filter (fun y => class (fst y)) s
        = filter (fun y => class (fst y)) (pre ++ rest))).
Proof.
  revert pre. induction rest as [| x rest IH]; intros pre Hpre Hrest; simpl.
  - exists pre. rewrite app_nil_r.
    split; [reflexivity | split; [apply Permutation_refl |]].
    intros _ Hs. split; [exact Hs | reflexivity].
  - inversion Hrest as [| ? ? Hx Hrest']; subst.
    destruct (bisect_place (fst x) pre Hx Hpre) as [i [-> [Hi [Hleft Hright]]]].
    simpl.
    assert (Hk : Forall keyed (insert_at i x pre)).
    { apply (Permutation_Forall (insert_at_perm i x pre)).
      apply Forall_app. split; [exact Hpre | constructor; [exact Hx | constructor]]. }
    destruct (IH (insert_at i x pre) Hk Hrest') as [s [-> [Hperm Hrestspec]]].
    exists s. split; [reflexivity | split].
    + apply Permutation_trans with (insert_at i x pre ++ rest); [| exact Hperm].
      replace (pre ++ x :: rest)%list with ((pre ++ [x]) ++ rest)%list
        by (rewrite <- app_assoc; reflexivity).
      apply Permutation_app_tail, insert_at_perm.
    + intros Hasym Hs.
      pose proof (insert_at_sorted i x pre Hasym Hx Hpre Hi Hleft Hright Hs) as Hs'.
      destruct (Hrestspec Hasym Hs') as [Hsorted Hstable].
      split; [exact Hsorted |].
      intros Hnt class Hflat.
      rewrite (Hstable Hnt class Hflat), filter_app.
      rewrite (insert_at_filter class i x pre Hnt Hflat Hx Hpre Hright Hs).
      rewrite <- filter_app, <- app_assoc. reflexivity.
Qed.

End OneRunSort.


Section OneRunContract.

Context {K A : Type}.
Variable lt : K -> K -> result bool.
Variable ltb : K -> K -> bool.
Variable dom : K -> Prop.

Hypothesis lt_ltb : forall a b, dom a -> dom b -> lt a b = Ok (ltb a b).

Let keyed (x : K * A) : Prop := dom (fst x).
Let asc : K * A -> K * A -> Prop := ascending ltb.
Let desc (x y : K * A) : Prop := ltb (fst y) (fst x) = true.

Lemma desc_transitive :
  asymmetric ltb dom -> negatively_transitive ltb dom ->
  forall x y z, keyed x -> keyed y -> keyed z -> desc x y -> desc y z -> desc x z.
Proof.
  intros Hasym Hnt x y z Hx Hy Hz Hxy Hyz. unfold desc in *.
  destruct (ltb (fst z) (fst x)) eqn:E; [reflexivity |].
  pose proof (Hasym _ _ Hy Hx Hxy) as Hyx.
  rewrite (Hnt (fst z) (fst x) (fst y) Hz Hx Hy E Hyx) in Hyz. discriminate Hyz.
Qed.

(** A strictly descending run holds at most one element of a class, so
    that reversing it keeps the order within the class. *)
Lemma descending_run_filter (class : K -> bool) (run : list (K * A)) :
  asymmetric ltb dom -> negatively_transitive ltb dom -> flat ltb dom class ->
  Forall keyed run -> Sorted desc run ->
  filter (fun y => class (fst y)) (rev run)
  = filter (fun y => class (fst y)) run.
Proof.
  intros Hasym Hnt Hflat Hk Hs.
  pose proof (Sorted_StronglySorted_on desc keyed run
                (desc_transitive Hasym Hnt) Hk Hs) as Hss.
  rewrite filter_rev. apply rev_short.
  clear Hs. induction Hss as [| a l _ IH Hall]; simpl; [lia |].
  inversion Hk as [| ? ? Ha Hl]; subst.
  destruct (class (fst a)) eqn:Ca; [| apply IH, Hl].
  assert (Hnone : forall l', Forall (desc a) l' -> Forall keyed l' ->
                  filter (fun y => class (fst y)) l' = []).
  { induction 1 as [| z l' Hz _ IHl]; intros Hkl; [reflexivity |].
    inversion Hkl as [| ? ? Kz Kl]; subst. simpl.
    destruct (class (fst z)) eqn:Cz; [| apply IHl, Kl].
    unfold desc in Hz. rewrite (Hflat (fst a) (fst z) Ha Kz Ca Cz) in Hz.
    discriminate Hz. }
  rewrite (Hnone l Hall Hl). simpl. lia.
Qed.

Lemma one_run_sort_sorted (l : list (K * A)) :
  Forall keyed l -> Sorted asc l -> one_run_sort lt l = Ok l.
Proof.
  intros Hk Hs. destruct l as [| a0 [| a1 rest]]; [reflexivity | reflexivity |].
  inversion Hk as [| ? ? H0 Hk1]; subst.
  inversion Hk1 as [| ? ? H1 _]; subst.
  inversion Hs as [| ? ? Hs1 Hhd]; subst.
  inversion Hhd as [| ? ? H01]; subst.
  unfold one_run_sort, count_run.
  rewrite (lt_ltb _ _ H1 H0). unfold asc, ascending in H01. rewrite H01.
  cbn [bind]. rewrite (run_length_sorted lt ltb dom lt_ltb a1 rest Hk1 Hs1).
  cbn [bind].
  rewrite firstn_all2 by (simpl; lia). rewrite skipn_all2 by (simpl; lia).
  reflexivity.
Qed.

Lemma one_run_sort_contract (l : list (K * A)) :
  Forall keyed l ->
  exists s, one_run_sort lt l = Ok s /\ sort_contract ltb dom l s.
Proof.
  intros Hk.
  assert (Hsmall : (length l <= 1)%nat ->
                   exists s, one_run_sort lt l = Ok s /\ sort_contract ltb dom l s).
  { intros Hlen. exists l. split.
    - destruct l as [| a0 [| a1 rest]]; [reflexivity | reflexivity | simpl in Hlen; lia].
    - split; [apply Permutation_refl | split; [| split]].
      + intros _. destruct l as [| a0 [| a1 rest]];
          [constructor | repeat constructor | simpl in Hlen; lia].
      + reflexivity.
      + reflexivity. }
  destruct l as [| a0 [| a1 rest]];
    [apply Hsmall; simpl; lia | apply Hsmall; simpl; lia | clear Hsmall].
  inversion Hk as [| ? ? H0 Hk1]; subst.
  inversion Hk1 as [| ? ? H1 Hk2]; subst.
  destruct (run_length_spec lt ltb dom lt_ltb (ltb (fst a1) (fst a0)) (fst a1) rest
              H1 Hk2) as [m [Hm [Hlen Hchain]]].
  set (b := ltb (fst a1) (fst a0)) in *.
  set (run := a0 :: a1 :: firstn m rest).
  set (run' := if b then rev run else run).
  assert (Hrun : Forall keyed run).
  { unfold run. constructor; [exact H0 | constructor; [exact H1 |]].
    pose proof Hk2 as Hk3. rewrite <- (firstn_skipn m rest) in Hk3.
    apply Forall_app in Hk3. apply Hk3. }
  assert (Hrun' : Forall keyed run').
  { unfold run'. destruct b; [| exact Hrun].
    apply Forall_rev, Hrun. }
  assert (Hrest : Forall keyed (skipn m rest)).
  { rewrite <- (firstn_skipn m rest) in Hk2.
    apply Forall_app in Hk2. apply Hk2. }
  destruct (binarysort_spec lt ltb dom lt_ltb (skipn m rest) run' Hrun' Hrest)
    as [s [Hs [Hperm Hspec]]].
  assert (Heq : one_run_sort lt (a0 :: a1 :: rest) = Ok s).
  { unfold one_run_sort, count_run.
    rewrite (lt_ltb _ _ H1 H0). cbn [bind]. fold b. rewrite Hm. cbn [bind].
    exact Hs. }
  assert (Hsplit : a0 :: a1 :: rest = run ++ skipn m rest).
  { unfold run. simpl. rewrite firstn_skipn. reflexivity. }
  assert (Hchain0 : chain ltb b (fst a0) (a1 :: firstn m rest)).
  { simpl. split; [reflexivity | exact Hchain]. }
  exists s. split; [exact Heq |].
  split; [| split; [| split]].
  - rewrite Hsplit.
    apply Permutation_trans with (run' ++ skipn m rest); [| exact Hperm].
    apply Permutation_app_tail. unfold run'.
    destruct b; [apply Permutation_rev | apply Permutation_refl].
  - intros Hasym. apply Hspec; [exact Hasym |].
    unfold run'. destruct b.
    + apply Sorted_weaken with (R := fun x y => desc y x) (P := keyed).
      * intros x y Hx Hy Hxy. unfold desc in Hxy. unfold asc, ascending.
        apply Hasym; assumption.
      * apply Forall_rev, Hrun.
      * apply (Sorted_rev desc). apply (chain_descending ltb a0 _ Hchain0).
    + apply (chain_ascending ltb a0 _ Hchain0).
  - intros Hsorted.
    pose proof (one_run_sort_sorted _ Hk Hsorted) as Hid.
    rewrite Heq in Hid. injection Hid as ->. reflexivity.
  - intros Hasym Hnt class Hflat.
    assert (Hsorted' : Sorted asc run').
    { unfold run'. destruct b.
      - apply Sorted_weaken with (R := fun x y => desc y x) (P := keyed).
        + intros x y Hx Hy Hxy. unfold desc in Hxy. unfold asc, ascending.
          apply Hasym; assumption.
        + apply Forall_rev, Hrun.
        + apply (Sorted_rev desc). apply (chain_descending ltb a0 _ Hchain0).
      - apply (chain_ascending ltb a0 _ Hchain0). }
    destruct (Hspec Hasym Hsorted') as [_ Hstable].
    rewrite (Hstable Hnt class Hflat), Hsplit, !filter_app. f_equal.
    unfold run'. destruct b; [| reflexivity].
    apply (descending_run_filter class run Hasym Hnt Hflat Hrun).
    apply (chain_descending ltb a0 _ Hchain0).
Qed.

End OneRunContract.

(** The merge phase that makes the whole list one run: it keeps the
    contract, so the contract can be kept. *)
Definition one_run_merge : MergePhase := {|
  merge_runs := fun K A => @one_run_sort K A;
  merge_runs_contract := fun K A lt ltb dom l Hlt Hk =>
    one_run_sort_contract lt ltb dom Hlt l Hk
|}.

Lemma list_sort_contract {long_lists : MergePhase} {K A : Type}
  (lt : K -> K -> result bool) (ltb : K -> K -> bool) (dom : K -> Prop)
  (l : list (K * A)) :
  (forall a b, dom a -> dom b -> lt a b = Ok (ltb a b)) ->
  Forall (fun x => dom (fst x)) l ->
  exists s, list_sort lt l = Ok s /\ sort_contract ltb dom l s.
Proof.
  intros Hlt Hk. unfold list_sort.
  destruct (length l <? 64)%nat.
  - apply (one_run_sort_contract lt ltb dom Hlt l Hk).
  - apply (merge_runs_contract K A lt ltb dom l Hlt Hk).
Qed.


(** ** The order on ranking keys *)

Local Open Scope Q_scope.

Lemma Qltb_lt (x y : Q) : Qltb x y = true <-> x < y.
Proof.
  unfold Qltb. rewrite Qlt_alt.
  destruct (x ?= y); split; congruence.
Qed.

Lemma Qltb_ge (x y : Q) : Qltb x y = false <-> y <= x.
Proof.
  split; intros H.
  - apply Qnot_lt_le. intros Hlt. apply Qltb_lt in Hlt. congruence.
  - destruct (Qltb x y) eqn:E; [| reflexivity].
    apply Qltb_lt in E. apply Qle_not_lt in H. contradiction.
Qed.

Lemma Qeq_bool_false (x y : Q) : Qeq_bool x y = false <-> ~ x == y.
Proof.
  split; intros H.
  - intros E. apply Qeq_bool_iff in E. congruence.
  - destruct (Qeq_bool x y) eqn:E; [| reflexivity].
    apply Qeq_bool_iff in E. contradiction.
Qed.

Lemma float_eqb_eq (a b : pyfloat) : float_eqb a b = true <-> float_eq a b.
Proof.
  destruct a, b; simpl; try (split; [discriminate | contradiction]).
  apply Qeq_bool_iff.
Qed.

Lemma float_ltb_lt (a b : pyfloat) : float_ltb a b = true <-> float_lt a b.
Proof.
  destruct a, b; simpl; try (split; [discriminate | contradiction]).
  apply Qltb_lt.
Qed.

Lemma float_le_not_lt (a b : pyfloat) : float_le b a -> float_ltb a b = false.
Proof.
  destruct a, b; simpl; try contradiction. apply Qltb_ge.
Qed.

Lemma Qeq_bool_sym (x y : Q) : Qeq_bool x y = Qeq_bool y x.
Proof.
  destruct (Qeq_bool x y) eqn:E1, (Qeq_bool y x) eqn:E2; try reflexivity.
  - apply Qeq_bool_iff in E1. apply Qeq_bool_false in E2.
    exfalso. apply E2. symmetry. exact E1.
  - apply Qeq_bool_iff in E2. apply Qeq_bool_false in E1.
    exfalso. apply E1. symmetry. exact E2.
Qed.

Lemma float_same_sym (a b : pyfloat) : float_same a b = float_same b a.
Proof.
  destruct a, b; simpl; try reflexivity;
    [apply Qeq_bool_sym | apply Nat.eqb_sym].
Qed.

Lemma float_eq_same (a b : pyfloat) : float_eq a b -> float_same a b = true.
Proof.
  destruct a, b; simpl; try contradiction. apply Qeq_bool_iff.
Qed.

Lemma float_ltb_asym (a b : pyfloat) :
  float_ltb a b = true -> float_ltb b a = false.
Proof.
  destruct a, b; simpl; try discriminate.
  intros H. apply Qltb_lt in H. apply Qltb_ge. lra.
Qed.

Lemma float_ltb_same (a b : pyfloat) :
  float_ltb a b = true -> float_same a b = false.
Proof.
  destruct a, b; simpl; try discriminate.
  intros H. apply Qltb_lt in H. apply Qeq_bool_false. lra.
Qed.

(** [<] on keys is asymmetric, with NaN as well. *)
Lemma lex_ltb_asym (a b : pyfloat * pyfloat) :
  lex_ltb a b = true -> lex_ltb b a = false.
Proof.
  unfold lex_ltb.
  rewrite (float_same_sym (fst b) (fst a)), (float_same_sym (snd b) (snd a)).
  destruct (float_same (fst a) (fst b)); simpl; [| apply float_ltb_asym].
  destruct (float_same (snd a) (snd b)); simpl;
    [discriminate | apply float_ltb_asym].
Qed.

(** The tuple comparison says [a < b] when the first position where the
    two keys differ says so. *)
Lemma lex_ltb_lt (a b : pyfloat * pyfloat) : key_lt a b -> lex_ltb a b = true.
Proof.
  unfold lex_ltb, key_lt. intros [H | [H1 H2]].
  - apply float_ltb_lt in H. rewrite (float_ltb_same _ _ H). exact H.
  - rewrite (float_eq_same _ _ H1). simpl.
    apply float_ltb_lt in H2. rewrite (float_ltb_same _ _ H2). exact H2.
Qed.

Lemma key_ge_not_lt (a b : pyfloat * pyfloat) : key_ge a b -> lex_ltb a b = false.
Proof.
  unfold lex_ltb, key_ge. intros [H | [H1 H2]].
  - apply float_ltb_lt in H.
    rewrite float_same_sym, (float_ltb_same _ _ H). simpl.
    apply float_ltb_asym, H.
  - rewrite (float_eq_same _ _ H1). simpl.
    destruct (float_same (snd a) (snd b)); simpl; [reflexivity |].
    apply float_le_not_lt, H2.
Qed.

(** Without NaN, [a < b] is false exactly when [a >= b]. *)
Lemma lex_ltb_ge (a b : pyfloat * pyfloat) :
  finite_key a -> finite_key b -> (lex_ltb a b = false <-> key_ge a b).
Proof.
  intros Ha Hb. split; [| apply key_ge_not_lt].
  destruct a as [[a1 | ?] [a2 | ?]], b as [[b1 | ?] [b2 | ?]];
    try (destruct Ha as [Ha1 Ha2]; simpl in Ha1, Ha2; contradiction);
    try (destruct Hb as [Hb1 Hb2]; simpl in Hb1, Hb2; contradiction).
  unfold lex_ltb, key_ge. simpl.
  destruct (Qeq_bool a1 b1) eqn:E1; simpl.
  - apply Qeq_bool_iff in E1.
    destruct (Qeq_bool a2 b2) eqn:E2; simpl.
    + apply Qeq_bool_iff in E2. intros _. right. split; [exact E1 | lra].
    + rewrite Qltb_ge. intros H; right; split; assumption.
  - apply Qeq_bool_false in E1. rewrite Qltb_ge.
    intros H. left. apply Qle_lteq in H. destruct H as [H | H]; [exact H |].
    exfalso. apply E1. symmetry. exact H.
Qed.

Lemma key_ge_trans (a b c : pyfloat * pyfloat) :
  key_ge a b -> key_ge b c -> key_ge a c.
Proof.
  unfold key_ge.
  destruct a as [[a1 | ?] [a2 | ?]], b as [[b1 | ?] [b2 | ?]],
           c as [[c1 | ?] [c2 | ?]];
    simpl; intros [H | [H1 H2]] [H' | [H1' H2']]; try contradiction;
    solve [left; lra | right; split; lra].
Qed.

Lemma lex_ltb_ntrans (a b c : pyfloat * pyfloat) :
  finite_key a -> finite_key b -> finite_key c ->
  lex_ltb a b = false -> lex_ltb b c = false -> lex_ltb a c = false.
Proof.
  intros Ha Hb Hc H1 H2.
  apply (lex_ltb_ge a b Ha Hb) in H1. apply (lex_ltb_ge b c Hb Hc) in H2.
  apply key_ge_not_lt. apply (key_ge_trans a b c H1 H2).
Qed.

Lemma py_eq_number (a b : pyval) (x y : pyfloat) :
  py_number a = Some x -> py_number b = Some y -> py_eq a b = float_eqb x y.
Proof.
  intros Ha Hb.
  destruct a; simpl in Ha; try discriminate Ha;
    simpl; rewrite Hb; injection Ha as <-; reflexivity.
Qed.

Lemma py_same_number (a b : pyval) (x y : pyfloat) :
  py_number a = Some x -> py_number b = Some y -> py_same a b = float_same x y.
Proof.
  intros Ha Hb. unfold py_same.
  rewrite (py_eq_number a b x y Ha Hb).
  destruct a as [| | | fa | | |]; simpl in Ha; try discriminate Ha;
    injection Ha as <-;
    destruct b as [| | | fb | | |]; simpl in Hb; try discriminate Hb;
    injection Hb as <-; simpl; try reflexivity;
    repeat match goal with f : pyfloat |- _ => destruct f end;
    simpl; try reflexivity; apply orb_false_r.
Qed.

Lemma py_lt_number (a b : pyval) (x y : pyfloat) :
  py_number a = Some x -> py_number b = Some y -> py_lt a b = Ok (float_ltb x y).
Proof.
  intros Ha Hb.
  destruct a; simpl in Ha; try discriminate Ha;
    simpl; rewrite Hb; injection Ha as <-; reflexivity.
Qed.

Lemma tuple_lt_number (a b : pyval * pyval) (ka kb : pyfloat * pyfloat) :
  num_key a = Some ka -> num_key b = Some kb ->
  tuple_lt a b = Ok (lex_ltb ka kb).
Proof.
  unfold num_key, tuple_lt, lex_ltb. intros Ha Hb.
  destruct (py_number (fst a)) as [a1 |] eqn:A1; [| discriminate].
  destruct (py_number (snd a)) as [a2 |] eqn:A2; [| discriminate].
  destruct (py_number (fst b)) as [b1 |] eqn:B1; [| discriminate].
  destruct (py_number (snd b)) as [b2 |] eqn:B2; [| discriminate].
  injection Ha as <-. injection Hb as <-. simpl.
  rewrite (py_same_number _ _ _ _ A1 B1), (py_same_number _ _ _ _ A2 B2).
  rewrite (py_lt_number _ _ _ _ A1 B1), (py_lt_number _ _ _ _ A2 B2).
  destruct (float_same a1 b1); simpl; [| reflexivity].
  destruct (float_same a2 b2); reflexivity.
Qed.

Local Close Scope Q_scope.

Lemma tuple_lt_numeric (a b : pyval * pyval) :
  numeric a -> numeric b -> tuple_lt a b = Ok (num_key_ltb a b).
Proof.
  intros [ka Ha] [kb Hb]. unfold num_key_ltb. rewrite Ha, Hb.
  apply tuple_lt_number; assumption.
Qed.

Lemma finite_numeric_numeric (k : pyval * pyval) : finite_numeric k -> numeric k.
Proof. intros [q [Hq _]]. exists q. exact Hq. Qed.

Lemma num_key_ltb_asym (dom : pyval * pyval -> Prop) :
  asymmetric num_key_ltb dom.
Proof.
  intros a b _ _. unfold num_key_ltb.
  destruct (num_key a) as [ka |]; [| discriminate].
  destruct (num_key b) as [kb |]; [| discriminate].
  apply lex_ltb_asym.
Qed.

Lemma num_key_ltb_ntrans : negatively_transitive num_key_ltb finite_numeric.
Proof.
  intros a b c [ka [Ha Fa]] [kb [Hb Fb]] [kc [Hc Fc]]. unfold num_key_ltb.
  rewrite Ha, Hb, Hc. apply lex_ltb_ntrans; assumption.
Qed.

(** ** The sorting validator *)

Lemma num_key_instance (p : Prediction) :
  num_key (instance_key p) = Some (rank_key p).
Proof.
  unfold num_key, instance_key, rank_key. simpl.
  destruct (prediction_documents p); reflexivity.
Qed.

Lemma num_key_ltb_instance (p1 p2 : Prediction) :
  num_key_ltb (instance_key p1) (instance_key p2)
  = lex_ltb (rank_key p1) (rank_key p2).
Proof. unfold num_key_ltb. rewrite !num_key_instance. reflexivity. Qed.

Lemma combine_map_self {A B : Type} (g : A -> B) (l : list A) :
  combine (map g l) l = map (fun a => (g a, a)) l.
Proof. induction l; simpl; congruence. Qed.

Lemma Sorted_map {A B : Type} (R : B -> B -> Prop) (f : A -> B) (l : list A) :
  Sorted (fun a b => R (f a) (f b)) l <-> Sorted R (map f l).
Proof.
  induction l as [| a l IH]; simpl.
  - split; constructor.
  - split; intros H; inversion H as [| ? ? Hs Hhd]; subst;
      (constructor; [apply IH, Hs |]);
      destruct l; simpl in *; constructor; inversion Hhd; subst; assumption.
Qed.

Lemma keyed_predictions_own (v : list Prediction) :
  Forall own_key (keyed_predictions v).
Proof.
  apply Forall_forall. intros x Hx.
  apply in_map_iff in Hx. destruct Hx as [p [<- _]]. reflexivity.
Qed.

Lemma keyed_predictions_snd (l : list ((pyval * pyval) * Prediction)) :
  Forall own_key l -> keyed_predictions (map snd l) = l.
Proof.
  unfold keyed_predictions.
  induction 1 as [| [k p] l Hx _ IH]; simpl; [reflexivity |].
  unfold own_key in Hx. simpl in Hx. subst k.
  rewrite IH. reflexivity.
Qed.

Lemma map_snd_keyed_predictions (v : list Prediction) :
  map snd (keyed_predictions v) = v.
Proof.
  unfold keyed_predictions. rewrite map_map. simpl. apply map_id.
Qed.

Lemma own_key_numeric (l : list ((pyval * pyval) * Prediction)) :
  Forall own_key l -> Forall (fun x => numeric (fst x)) l.
Proof.
  apply Forall_impl. intros x ->. eexists. apply num_key_instance.
Qed.

Lemma own_key_finite (l : list ((pyval * pyval) * Prediction)) :
  Forall own_key l -> Forall no_nan (map snd l) ->
  Forall (fun x => finite_numeric (fst x)) l.
Proof.
  induction 1 as [| x l Hx _ IH]; simpl; intros Hf; constructor;
    inversion Hf as [| ? ? Hp Hl]; subst.
  - rewrite Hx. exists (rank_key (snd x)).
    split; [apply num_key_instance | exact Hp].
  - apply IH, Hl.
Qed.

Section Validator.

Context {long_lists : MergePhase}.

Lemma sort_predictions_unfold (v : list Prediction) :
  sort_predictions v =
  (r <- list_sort tuple_lt (rev (keyed_predictions v)) ;;
   Ok (map snd (rev r))).
Proof.
  unfold sort_predictions, sorted, keyed_predictions.
  rewrite (mapM_pure _ instance_key) by (intros; reflexivity).
  cbn [bind]. rewrite combine_map_self.
  destruct (list_sort _ _); reflexivity.
Qed.

(** The sort of the validator, on the pairs of a key and its prediction:
    it returns, and keeps the contract of [list.sort] on all keys, and on
    the keys without NaN when there is no other. *)
Lemma list_sort_own_keys (l : list ((pyval * pyval) * Prediction)) :
  Forall own_key l ->
  exists r,
    list_sort tuple_lt l = Ok r /\
    Forall own_key r /\
    sort_contract num_key_ltb numeric l r /\
    (Forall no_nan (map snd l) -> sort_contract num_key_ltb finite_numeric l r).
Proof.
  intros Hown.
  destruct (list_sort_contract tuple_lt num_key_ltb numeric l tuple_lt_numeric
              (own_key_numeric l Hown)) as [r [Hr Hc]].
  exists r. split; [exact Hr | split; [| split; [exact Hc |]]].
  - destruct Hc as [Hp _]. rewrite Forall_forall in *. intros x Hx.
    apply Hown, (Permutation_in _ (Permutation_sym Hp)), Hx.
  - intros Hfin.
    destruct (list_sort_contract tuple_lt num_key_ltb finite_numeric l) as [r' [Hr' Hc']].
    + intros a b Ha Hb. apply tuple_lt_numeric; apply finite_numeric_numeric; assumption.
    + apply own_key_finite; assumption.
    + rewrite Hr in Hr'. injection Hr' as <-. exact Hc'.
Qed.

Lemma never_rising_keyed (r : list ((pyval * pyval) * Prediction)) :
  Forall own_key r -> Sorted (ascending num_key_ltb) r ->
  never_rising (map snd (rev r)).
Proof.
  intros Hown Hs. unfold never_rising.
  apply Sorted_map.
  apply Sorted_weaken
    with (R := fun x y => ascending num_key_ltb y x) (P := own_key).
  - intros x y Hx Hy. unfold ascending. rewrite Hx, Hy.
    rewrite num_key_ltb_instance. simpl. intros H; exact H.
  - apply Forall_rev, Hown.
  - apply (Sorted_rev (ascending num_key_ltb)), Hs.
Qed.

Lemma sort_predictions_run (v : list Prediction) :
  exists r,
    sort_predictions v = Ok (map snd (rev r)) /\
    Forall own_key r /\
    sort_contract num_key_ltb numeric (rev (keyed_predictions v)) r /\
    (Forall no_nan v ->
     sort_contract num_key_ltb finite_numeric (rev (keyed_predictions v)) r).
Proof.
  destruct (list_sort_own_keys (rev (keyed_predictions v)))
    as [r [Hr [Hown [Hc Hf]]]].
  - apply Forall_rev, keyed_predictions_own.
  - exists r. rewrite sort_predictions_unfold, Hr.
    split; [reflexivity | split; [exact Hown | split; [exact Hc |]]].
    intros Hn. apply Hf.
    rewrite map_rev, map_snd_keyed_predictions. apply Forall_rev, Hn.
Qed.

Lemma sort_run_perm (v : list Prediction)
  (r : list ((pyval * pyval) * Prediction)) :
  Permutation (rev (keyed_predictions v)) r -> Permutation v (map snd (rev r)).
Proof.
  intros Hp.
  apply Permutation_trans with (map snd (rev (keyed_predictions v))).
  - rewrite map_rev, map_snd_keyed_predictions. apply Permutation_rev.
  - apply Permutation_map.
    apply Permutation_trans with r; [exact Hp | apply Permutation_rev].
Qed.

(** The validator returns on every list of predictions; its result is a
    permutation of the list in which no prediction is below the one
    before it, and it is in rank order when no key holds NaN. *)
Lemma sort_predictions_spec (v : list Prediction) :
  exists s, sort_predictions v = Ok s /\ Permutation v s /\ never_rising s /\
            (Forall no_nan v -> ranked s).
Proof.
  destruct (sort_predictions_run v) as [r [Hs [Hown [Hc Hfin]]]].
  exists (map snd (rev r)). split; [exact Hs |].
  destruct Hc as [Hp [Hsorted _]].
  split; [apply sort_run_perm, Hp | split].
  - apply never_rising_keyed; [exact Hown |].
    apply Hsorted, num_key_ltb_asym.
  - intros Hn. destruct (Hfin Hn) as [_ [Hsorted' _]].
    assert (Hfr : Forall (fun x => finite_numeric (fst x)) r).
    { apply own_key_finite; [exact Hown |].
      rewrite Forall_forall in *. intros p Hp'.
      apply Hn, (Permutation_in _ (Permutation_sym (sort_run_perm v r Hp))).
      rewrite map_rev. apply -> in_rev. exact Hp'. }
    apply StronglySorted_map_snd.
    apply StronglySorted_weaken
      with (R := fun x y => ascending num_key_ltb y x)
           (P := fun x => own_key x /\ finite_numeric (fst x)).
    + intros x y [Hx Fx] [Hy Fy]. unfold ascending.
      destruct Fx as [kx [Hkx Fx]], Fy as [ky [Hky Fy]].
      unfold num_key_ltb. rewrite Hkx, Hky. intros H.
      apply (lex_ltb_ge kx ky Fx Fy) in H.
      rewrite Hx, num_key_instance in Hkx. injection Hkx as <-.
      rewrite Hy, num_key_instance in Hky. injection Hky as <-.
      exact H.
    + apply Forall_rev. rewrite Forall_forall in *. intros x Hx.
      split; [apply Hown, Hx | apply Hfr, Hx].
    + apply (StronglySorted_rev _ (ascending num_key_ltb)).
      apply Sorted_StronglySorted_on
        with (P := fun x : (pyval * pyval) * Prediction => finite_numeric (fst x)).
      * apply (asc_transitive num_key_ltb finite_numeric num_key_ltb_ntrans).
      * exact Hfr.
      * apply Hsorted', num_key_ltb_asym.
Qed.

(** Sorting the result of the validator again changes nothing, whatever
    the scores are. *)
Lemma sort_predictions_again (v s : list Prediction) :
  sort_predictions v = Ok s -> sort_predictions s = Ok s.
Proof.
  intros H. destruct (sort_predictions_run v) as [r [Hs [Hown [Hc _]]]].
  rewrite H in Hs. injection Hs as ->.
  rewrite sort_predictions_unfold.
  rewrite keyed_predictions_snd by (apply Forall_rev, Hown).
  rewrite rev_involutive.
  destruct (list_sort_own_keys r Hown) as [r' [Hr' [_ [Hc' _]]]].
  destruct Hc as [_ [Hsorted _]]. destruct Hc' as [_ [_ [Hid _]]].
  rewrite Hr', (Hid (Hsorted (num_key_ltb_asym numeric))). reflexivity.
Qed.

Lemma key_eqb_flat (a b k : pyfloat * pyfloat) :
  key_eqb a k = true -> key_eqb b k = true -> lex_ltb b a = false.
Proof.
  unfold key_eqb. intros Ha Hb.
  apply andb_true_iff in Ha. destruct Ha as [Ha1 Ha2].
  apply andb_true_iff in Hb. destruct Hb as [Hb1 Hb2].
  apply float_eqb_eq in Ha1, Ha2, Hb1, Hb2.
  apply key_ge_not_lt. unfold key_ge.
  destruct a as [[a1 | ?] [a2 | ?]], b as [[b1 | ?] [b2 | ?]],
           k as [[k1 | ?] [k2 | ?]];
    simpl in *; try contradiction.
  right. split; lra.
Qed.

(** The validator is stable when no key holds NaN. *)
Lemma sort_predictions_filter (v s : list Prediction) (k : pyfloat * pyfloat) :
  sort_predictions v = Ok s -> Forall no_nan v ->
  filter (fun p => key_eqb (rank_key p) k) s
  = filter (fun p => key_eqb (rank_key p) k) v.
Proof.
  intros H Hn. destruct (sort_predictions_run v) as [r [Hs [Hown [_ Hfin]]]].
  rewrite H in Hs. injection Hs as ->.
  set (class := fun k' : pyval * pyval =>
                  match num_key k' with
                  | Some q => key_eqb q k
                  | None => false
                  end).
  destruct (Hfin Hn) as [_ [_ [_ Hstable]]].
  specialize (Hstable (num_key_ltb_asym finite_numeric) num_key_ltb_ntrans class).
  assert (Hf : filter (fun x => class (fst x)) r
               = filter (fun x => class (fst x)) (rev (keyed_predictions v))).
  { apply Hstable. intros a b [ka [Ha _]] [kb [Hb _]]. unfold class, num_key_ltb.
    rewrite Ha, Hb. intros Ca Cb. apply (key_eqb_flat _ _ k); assumption. }
  rewrite filter_map_swap, filter_rev.
  rewrite (filter_ext_in _ (fun x => class (fst x))).
  - rewrite Hf, filter_rev, rev_involutive.
    unfold keyed_predictions. rewrite filter_map_swap, map_map. simpl.
    rewrite map_id.
    apply filter_ext. intros p. unfold class.
    rewrite num_key_instance. reflexivity.
  - intros x Hx. rewrite Forall_forall in Hown.
    rewrite (Hown x Hx). unfold class. rewrite num_key_instance. reflexivity.
Qed.

Lemma QueryOutput_init_sort (v : list Prediction) (q : QueryOutput) :
  QueryOutput_init v = Ok q <-> sort_predictions v = Ok (predictions q).
Proof.
  unfold QueryOutput_init. split; intros H.
  - apply bind_ok_inv in H. destruct H as [s [Hs H]]. injection H as <-.
    exact Hs.
  - rewrite H. destruct q. reflexivity.
Qed.

Lemma QueryOutput_init_spec (v : list Prediction) :
  exists q, QueryOutput_init v = Ok q /\ Permutation v (predictions q) /\
            (Forall no_nan (predictions q) -> ranked (predictions q)).
Proof.
  destruct (sort_predictions_spec v) as [s [Hs [Hp [_ Hr]]]].
  exists {| predictions := s |}.
  split; [apply QueryOutput_init_sort, Hs | split; [exact Hp |]].
  simpl. intros Hn. apply Hr. rewrite Forall_forall in *. intros p Hin.
  apply Hn, (Permutation_in _ Hp), Hin.
Qed.

Lemma QueryOutput_init_ok (v : list Prediction) (q : QueryOutput) :
  QueryOutput_init v = Ok q ->
  Permutation v (predictions q) /\
  (Forall no_nan (predictions q) -> ranked (predictions q)).
Proof.
  intros H. destruct (QueryOutput_init_spec v) as [q' [Hq' Hs]].
  rewrite H in Hq'. injection Hq' as <-. exact Hs.
Qed.

Lemma QueryOutput_init_never_rising (v : list Prediction) (q : QueryOutput) :
  QueryOutput_init v = Ok q -> never_rising (predictions q).
Proof.
  intros H. apply QueryOutput_init_sort in H.
  destruct (sort_predictions_spec v) as [s [Hs [_ [Hr _]]]].
  rewrite H in Hs. injection Hs as <-. exact Hr.
Qed.

End Validator.

(** ** The constructors on well-typed arguments *)

Lemma nth_error_enumerate {A : Type} (l : list A) (i : nat) (x : A) :
  nth_error l i = Some x -> In (i, x) (enumerate l).
Proof.
  unfold enumerate.
  assert (G : forall k, nth_error l i = Some x ->
                        In ((i + k)%nat, x) (combine (seq k (length l)) l)).
  { revert i. induction l as [| a l IH]; intros i k H.
    - destruct i; discriminate H.
    - destruct i as [| i]; simpl in *.
      + injection H as ->. left. reflexivity.
      + right. specialize (IH i (S k) H).
        replace (S (i + k))%nat with (i + S k)%nat by lia. exact IH. }
  intros H. specialize (G 0%nat H). rewrite Nat.add_0_r in G. exact G.
Qed.

Section Adapters.

Context {pydantic : FieldCoercion} {long_lists : MergePhase}.

Lemma PredictionDocument_init_plain (text : string) :
  PredictionDocument_init [("document", PyStr text)] = Ok (plain_document text).
Proof.
  unfold PredictionDocument_init, field_default, field_required. simpl.
  rewrite to_str_str. reflexivity.
Qed.

Lemma PredictionDocument_init_span (text : string) (start end_ : Z) (score : pyval) :
  PredictionDocument_init
    [("document", PyStr text); ("span", PyList [PyInt start; PyInt end_]);
     ("score", score)]
  = Ok {| index := ""; document_id := ""; document := text;
          span := Some [start; end_]; url := ""; source := "";
          document_score := 0 |}.
Proof.
  unfold PredictionDocument_init, field_default, field_required. simpl.
  rewrite to_str_str, !to_int_int. reflexivity.
Qed.

Lemma PredictionOutput_init_typed (text : string) (score : pyfloat) :
  PredictionOutput_init (PyStr text) (PyFloat score)
  = Ok {| output := text; output_score := score |}.
Proof.
  unfold PredictionOutput_init. rewrite to_str_str, to_float_float. reflexivity.
Qed.

Lemma Prediction_init_typed (score : pyfloat) (o : PredictionOutput)
  (docs : list PredictionDocument) :
  Prediction_init (PyFloat score) o docs
  = Ok {| prediction_score := score; prediction_output := o;
          prediction_documents := docs |}.
Proof. unfold Prediction_init. rewrite to_float_float. reflexivity. Qed.

(** *** The fan-out helper *)

Lemma map_const_repeat {A B : Type} (c : B) (l : list A) :
  map (fun _ => c) l = repeat c (length l).
Proof. induction l; simpl; congruence. Qed.

Lemma length_range (n : nat) : length (range (Z.of_nat n)) = n.
Proof. unfold range. rewrite length_map, length_seq. apply Nat2Z.id. Qed.

Lemma fan_out_none (n : nat) :
  _prediction_documents_iter_from_context (Z.of_nat n) PyNone = Ok (repeat [] n).
Proof.
  simpl. rewrite map_const_repeat, length_range. reflexivity.
Qed.

Lemma fan_out_str (n : nat) (text : string) :
  _prediction_documents_iter_from_context (Z.of_nat n) (PyStr text)
  = Ok (repeat [plain_document text] n).
Proof.
  unfold _prediction_documents_iter_from_context.
  rewrite (mapM_pure _ (fun _ => [plain_document text])).
  - rewrite map_const_repeat, length_range. reflexivity.
  - intros _ _. rewrite PredictionDocument_init_plain. reflexivity.
Qed.

Lemma fan_out_list (n : nat) (texts : list string) :
  length texts = n ->
  _prediction_documents_iter_from_context (Z.of_nat n) (PyList (map PyStr texts))
  = Ok (map (fun t => [plain_document t]) texts).
Proof.
  intros <-. simpl. rewrite length_map, Z.eqb_refl. simpl.
  induction texts as [| t texts IH]; simpl.
  - reflexivity.
  - rewrite PredictionDocument_init_plain. simpl. rewrite IH. reflexivity.
Qed.

Lemma fan_out_length (n : nat) (context : pyval)
  (docs : list (list PredictionDocument)) :
  _prediction_documents_iter_from_context (Z.of_nat n) context = Ok docs ->
  length docs = n.
Proof.
  destruct context; simpl; try discriminate.
  - intros H. injection H as <-. unfold range.
    rewrite !length_map, length_seq. apply Nat2Z.id.
  - intros H. apply mapM_length in H. rewrite H. unfold range.
    rewrite length_map, length_seq. apply Nat2Z.id.
  - destruct (Z.of_nat (length l) =? Z.of_nat n) eqn:E; simpl; [| discriminate].
    intros H. apply mapM_length in H. rewrite H.
    apply Z.eqb_eq in E. lia.
Qed.

(** *** The sequence-classification adapter *)

Lemma from_sequence_classification_unfold (answers : list string)
  (model_api_output context : pyval) :
  from_sequence_classification answers model_api_output context =
  (docs <- _prediction_documents_iter_from_context
             (Z.of_nat (length answers)) context ;;
   row <- logits_row model_api_output ;;
   scores <- py_iter row ;;
   predictions <- mapM sequence_prediction (zip3 scores answers docs) ;;
   QueryOutput_init predictions).
Proof.
  unfold from_sequence_classification, logits_row.
  destruct (_prediction_documents_iter_from_context _ _); simpl; [| reflexivity].
  destruct (getitem_str model_api_output "model_outputs"); simpl; [| reflexivity].
  destruct (getitem_str a0 "logits"); simpl; reflexivity.
Qed.

Lemma sc_loop_typed (scores : list pyfloat) (answers : list string)
  (docs : list (list PredictionDocument)) :
  mapM sequence_prediction (zip3 (map PyFloat scores) answers docs)
  = Ok (map sc_prediction (zip3 scores answers docs)).
Proof.
  revert answers docs.
  induction scores as [| s scores IH]; intros answers docs; simpl.
  - reflexivity.
  - destruct answers as [| a answers]; [reflexivity |].
    destruct docs as [| d docs]; [reflexivity |]. simpl.
    rewrite PredictionOutput_init_typed. simpl.
    rewrite Prediction_init_typed. simpl.
    rewrite IH. reflexivity.
Qed.

Lemma length_zip3 {A B C : Type} (la : list A) (lb : list B) (lc : list C) :
  length (zip3 la lb lc) = Nat.min (length la) (Nat.min (length lb) (length lc)).
Proof.
  revert lb lc. induction la as [| a la IH]; intros lb lc; simpl.
  - reflexivity.
  - destruct lb as [| b lb]; [reflexivity |].
    destruct lc as [| c lc]; simpl; [lia |].
    rewrite IH. reflexivity.
Qed.

(** With scores that are floats, the adapter succeeds as soon as the
    helper and the payload path do, and holds one prediction per zipped
    triple. *)
Lemma from_sequence_classification_typed (answers : list string)
  (model_api_output context : pyval) (scores : list pyfloat)
  (docs : list (list PredictionDocument)) :
  _prediction_documents_iter_from_context (Z.of_nat (length answers)) context
    = Ok docs ->
  logits_row model_api_output = Ok (PyList (map PyFloat scores)) ->
  exists q,
    from_sequence_classification answers model_api_output context = Ok q /\
    Permutation (map sc_prediction (zip3 scores answers docs)) (predictions q) /\
    (Forall no_nan (predictions q) -> ranked (predictions q)).
Proof.
  intros Hdocs Hrow.
  rewrite from_sequence_classification_unfold, Hdocs, Hrow. simpl.
  rewrite sc_loop_typed. simpl.
  apply QueryOutput_init_spec.
Qed.

(** *** The question-answering adapter *)

Lemma answer_prediction_typed (context_doc : string) (context_score record : pyval)
  (answer : string) (score : pyfloat) (start end_ : Z) :
  getitem_str record "answer" = Ok (PyStr answer) ->
  getitem_str record "score" = Ok (PyFloat score) ->
  getitem_str record "start" = Ok (PyInt start) ->
  getitem_str record "end" = Ok (PyInt end_) ->
  answer_prediction (PyStr context_doc) context_score record
  = Ok {| prediction_score := score;
          prediction_output :=
            {| output := answer_text answer; output_score := score |};
          prediction_documents :=
            if String.eqb context_doc "" then []
            else [span_document context_doc start end_] |}.
Proof.
  intros Ha Hs Hst Hen. unfold answer_prediction.
  rewrite Ha, Hs. simpl.
  assert (Ho : PredictionOutput_init
                 (if negb (negb (String.eqb answer "")) then PyStr "No answer found."
                  else PyStr answer) (PyFloat score)
               = Ok {| output := answer_text answer; output_score := score |}).
  { unfold answer_text. destruct (String.eqb answer ""); simpl;
      apply PredictionOutput_init_typed. }
  rewrite Ho. simpl.
  destruct (String.eqb context_doc ""); simpl.
  - apply Prediction_init_typed.
  - rewrite Hst, Hen. simpl. rewrite PredictionDocument_init_span. simpl.
    apply Prediction_init_typed.
Qed.

(** Without a context document the record needs no offsets. *)
Lemma answer_prediction_no_context (context_score record : pyval)
  (answer : string) (score : pyfloat) :
  getitem_str record "answer" = Ok (PyStr answer) ->
  getitem_str record "score" = Ok (PyFloat score) ->
  answer_prediction (PyStr "") context_score record
  = Ok {| prediction_score := score;
          prediction_output :=
            {| output := answer_text answer; output_score := score |};
          prediction_documents := [] |}.
Proof.
  intros Ha Hs. unfold answer_prediction.
  rewrite Ha, Hs. simpl.
  unfold answer_text. destruct (String.eqb answer ""); simpl;
    rewrite PredictionOutput_init_typed; simpl; apply Prediction_init_typed.
Qed.

(** What a successful call says about the scores and the text of the
    prediction of a record. *)
Lemma answer_prediction_output (doc context_score record : pyval) (p : Prediction) :
  answer_prediction doc context_score record = Ok p ->
  (forall answer, getitem_str record "answer" = Ok (PyStr answer) ->
     output (prediction_output p) = answer_text answer) /\
  (forall score, getitem_str record "score" = Ok (PyFloat score) ->
     prediction_score p = score /\ output_score (prediction_output p) = score).
Proof.
  unfold answer_prediction. intros H.
  apply bind_ok_inv in H. destruct H as [a [Ha H]].
  apply bind_ok_inv in H. destruct H as [s [Hs H]].
  apply bind_ok_inv in H. destruct H as [o [Ho H]].
  apply bind_ok_inv in H. destruct H as [docs [_ H]].
  unfold Prediction_init in H.
  apply bind_ok_inv in H. destruct H as [ps [Hps H]].
  injection H as <-. simpl.
  unfold PredictionOutput_init in Ho.
  apply bind_ok_inv in Ho. destruct Ho as [ot [Hot Ho]].
  apply bind_ok_inv in Ho. destruct Ho as [os [Hos Ho]].
  injection Ho as <-. simpl.
  split.
  - intros answer Hanswer. rewrite Ha in Hanswer. injection Hanswer as ->.
    simpl in Hot. unfold answer_text.
    destruct (String.eqb answer ""); simpl in Hot;
      rewrite to_str_str in Hot; simpl in Hot; congruence.
  - intros score Hscore. rewrite Hs in Hscore. injection Hscore as ->.
    rewrite to_float_float in Hps, Hos. simpl in Hps, Hos.
    split; congruence.
Qed.

Lemma from_question_answering_ok (model_api_output context context_score : pyval)
  (q : QueryOutput) :
  from_question_answering model_api_output context context_score = Ok q ->
  exists answers passages preds,
    getitem_str model_api_output "answers" = Ok answers /\
    py_iter answers = Ok passages /\
    Forall2 (fun ia ps => passage_predictions context context_score ia = Ok ps)
            (enumerate passages) preds /\
    Permutation (concat preds) (predictions q) /\
    (Forall no_nan (predictions q) -> ranked (predictions q)).
Proof.
  unfold from_question_answering. intros H.
  apply bind_ok_inv in H. destruct H as [answers [Hanswers H]].
  apply bind_ok_inv in H. destruct H as [passages [Hpassages H]].
  apply bind_ok_inv in H. destruct H as [preds [Hpreds H]].
  exists answers, passages, preds.
  apply mapM_ok_Forall2 in Hpreds.
  apply QueryOutput_init_ok in H.
  repeat split; try assumption; apply H.
Qed.

(** Every [QueryOutput] holds what the validator returned for some list. *)
Lemma constructed_sorted (q : QueryOutput) :
  constructed q -> exists v, sort_predictions v = Ok (predictions q).
Proof.
  intros [v q' H | answers payload context q' H | payload context cs q' H].
  - exists v. apply QueryOutput_init_sort, H.
  - unfold from_sequence_classification in H.
    do 6 (apply bind_ok_inv in H; destruct H as [? [_ H]]).
    eexists. apply QueryOutput_init_sort, H.
  - unfold from_question_answering in H.
    do 3 (apply bind_ok_inv in H; destruct H as [? [_ H]]).
    eexists. apply QueryOutput_init_sort, H.
Qed.

Lemma constructed_ranked (q : QueryOutput) :
  constructed q -> Forall no_nan (predictions q) -> ranked (predictions q).
Proof.
  intros H. destruct (constructed_sorted q H) as [v Hv].
  apply QueryOutput_init_sort in Hv.
  apply (QueryOutput_init_ok v q Hv).
Qed.

Lemma constructed_never_rising (q : QueryOutput) :
  constructed q -> never_rising (predictions q).
Proof.
  intros H. destruct (constructed_sorted q H) as [v Hv].
  apply QueryOutput_init_sort in Hv.
  apply (QueryOutput_init_never_rising v q Hv).
Qed.

End Adapters.

Lemma StronglySorted_nth {A : Type} (R : A -> A -> Prop) (l : list A)
  (i j : nat) (x y : A) :
  StronglySorted R l -> nth_error l i = Some x -> nth_error l j = Some y ->
  (i < j)%nat -> R x y.
Proof.
  intros Hs. revert i j. induction Hs as [| a l _ IH Hf]; intros i j Hi Hj Hij.
  - destruct i; discriminate Hi.
  - destruct j as [| j]; [lia |]. simpl in Hj.
    destruct i as [| i]; simpl in Hi.
    + injection Hi as <-. rewrite Forall_forall in Hf.
      apply Hf. eapply nth_error_In, Hj.
    + apply (IH i j); [assumption | assumption | lia].
Qed.

(** * The properties of the spec *)

Section Claims.

Context {pydantic : FieldCoercion} {long_lists : MergePhase}.



(** C2, as the code has it. The key of a [Prediction] is (d, prediction_score)
    with d the [document_score] of the first document, or 1 when there is
    none; the equivalent mapping of a [Prediction] gets the same key, and
    so does any mapping with the two fields, read from its entries; an
    input that is neither a [Prediction] nor a mapping raises a type
    error, and a mapping that lacks one of the two fields raises a key
    error. *)
Theorem sort_predictions_key_cases :
  (forall p,
     sort_predictions_key (OfPrediction p)
     = Ok (match prediction_documents p with
           | d :: _ => PyFloat (document_score d)
           | [] => PyInt 1
           end,
           PyFloat (prediction_score p))) /\
  (forall p,
     sort_predictions_key (OfValue (Prediction_dict p))
     = sort_predictions_key (OfPrediction p)) /\
  (forall m score,
     assoc "prediction_score" m = Some score ->
     assoc "prediction_documents" m = Some (PyList []) ->
     sort_predictions_key (OfValue (PyDict m)) = Ok (PyInt 1, score)) /\
  (forall m score first rest d,
     assoc "prediction_score" m = Some score ->
     assoc "prediction_documents" m = Some (PyList (PyDict first :: rest)) ->
     assoc "document_score" first = Some d ->
     sort_predictions_key (OfValue (PyDict m)) = Ok (d, score)) /\
  (forall v, is_dict v = false ->
     sort_predictions_key (OfValue v) = Err TypeError) /\
  (forall m,
     assoc "prediction_score" m = None \/ assoc "prediction_documents" m = None ->
     sort_predictions_key (OfValue (PyDict m)) = Err KeyError).
Proof.
  repeat split.
  - intros p. unfold Prediction_dict. simpl.
    destruct (prediction_documents p) as [| d ds]; reflexivity.
  - intros m score Hs Hd. simpl. rewrite Hs, Hd. reflexivity.
  - intros m score first rest d Hs Hd Hf. simpl. rewrite Hs, Hd. simpl.
    rewrite Hf. reflexivity.
  - intros v Hv. destruct v; try reflexivity. discriminate Hv.
  - intros m [H | H]; simpl; rewrite H; [reflexivity |].
    destruct (assoc "prediction_score" m); reflexivity.
Qed.

(** C3. At the question-answering scenario of the spec (one empty
    answer of score 0.5 and span [0, 0], context "ctx", context score 1)
    the adapter returns one prediction with one document, and that
    document has [document_score] 0: the context score is handed over
    under the keyword [score], which names no field. *)
Theorem qa_scenario_document_score :
  from_question_answering
    (PyDict [("answers",
              PyList [PyList [PyDict [("answer", PyStr "");
                                      ("score", PyFloat (1 # 2));
                                      ("start", PyInt 0);
                                      ("end", PyInt 0)]]])])
    (PyStr "ctx") (PyInt 1)
  = Ok {| predictions :=
            [{| prediction_score := 1 # 2;
                prediction_output :=
                  {| output := "No answer found."; output_score := 1 # 2 |};
                prediction_documents :=
                  [{| index := ""; document_id := ""; document := "ctx";
                      span := Some [0; 0]; url := ""; source := "";
                      document_score := 0 |}] |}] |}.
Proof.
  unfold from_question_answering, passage_predictions. simpl.
  rewrite (answer_prediction_typed "ctx" (PyInt 1) _ "" (1 # 2) 0 0)
    by reflexivity.
  reflexivity.
Qed.

(** C4. For a count [n], the fan-out helper returns one document list
    per answer: [n] empty lists without a context, [n] times the one
    document of a shared text (no span, score 0), the documents of [n]
    texts in their order; a list of another length is a [ValueError], any
    other kind of value a [TypeError]. *)
Theorem fan_out_per_answer (n : nat) :
  _prediction_documents_iter_from_context (Z.of_nat n) PyNone
    = Ok (repeat [] n) /\
  (forall text,
     _prediction_documents_iter_from_context (Z.of_nat n) (PyStr text)
     = Ok (repeat [{| index := ""; document_id := ""; document := text;
                      span := None; url := ""; source := "";
                      document_score := 0 |}] n)) /\
  (forall texts, length texts = n ->
     _prediction_documents_iter_from_context (Z.of_nat n)
       (PyList (map PyStr texts))
     = Ok (map (fun t => [plain_document t]) texts)) /\
  (forall l, length l <> n ->
     _prediction_documents_iter_from_context (Z.of_nat n) (PyList l)
     = Err ValueError) /\
  (forall b, _prediction_documents_iter_from_context (Z.of_nat n) (PyBool b)
             = Err TypeError) /\
  (forall k, _prediction_documents_iter_from_context (Z.of_nat n) (PyInt k)
             = Err TypeError) /\
  (forall x, _prediction_documents_iter_from_context (Z.of_nat n) (PyFloat x)
             = Err TypeError) /\
  (forall d, _prediction_documents_iter_from_context (Z.of_nat n) (PyDict d)
             = Err TypeError) /\
  (forall context docs,
     _prediction_documents_iter_from_context (Z.of_nat n) context = Ok docs ->
     length docs = n).
Proof.
  split; [apply fan_out_none |].
  split; [intros text; apply fan_out_str |].
  split; [intros texts H; apply fan_out_list, H |].
  split.
  { intros l H. simpl.
    destruct (Z.of_nat (length l) =? Z.of_nat n) eqn:E; [| reflexivity].
    apply Z.eqb_eq in E. lia. }
  repeat split; try reflexivity.
  intros context docs. apply fan_out_length.
Qed.

Lemma Forall2_In_l {A B : Type} (R : A -> B -> Prop) (l : list A) (r : list B)
  (x : A) :
  Forall2 R l r -> In x l -> exists y, In y r /\ R x y.
Proof.
  induction 1 as [| a b l r Hab _ IH]; simpl; intros Hin.
  - contradiction.
  - destruct Hin as [<- | Hin].
    + exists b. split; [left; reflexivity | exact Hab].
    + destruct (IH Hin) as [y [Hy Hxy]]. exists y. split; [right |]; assumption.
Qed.

Lemma nth_error_zip3 {A B C : Type} (la : list A) (lb : list B) (lc : list C)
  (i : nat) (a : A) (b : B) (c : C) :
  nth_error la i = Some a -> nth_error lb i = Some b -> nth_error lc i = Some c ->
  nth_error (zip3 la lb lc) i = Some (a, b, c).
Proof.
  revert lb lc i.
  induction la as [| a' la IH]; intros lb lc i Ha Hb Hc.
  - destruct i; discriminate Ha.
  - destruct lb as [| b' lb]; [destruct i; discriminate Hb |].
    destruct lc as [| c' lc]; [destruct i; discriminate Hc |].
    destruct i as [| i]; simpl in *.
    + congruence.
    + apply IH; assumption.
Qed.

(** A record of the payload has its prediction in the output. *)
Lemma qa_record_prediction (model_api_output context context_score : pyval)
  (q : QueryOutput) (i : nat) (doc score record : pyval) :
  from_question_answering model_api_output context context_score = Ok q ->
  qa_record model_api_output context context_score i doc score record ->
  exists p, answer_prediction doc score record = Ok p /\ In p (predictions q).
Proof.
  intros Hq [answers [passages [passage [rows [Ha [Hp [Hi [Hr [Hrows Hin]]]]]]]]].
  apply from_question_answering_ok in Hq.
  destruct Hq as [answers' [passages' [preds [Ha' [Hp' [Hall [Hperm _]]]]]]].
  rewrite Ha in Ha'. injection Ha' as <-.
  rewrite Hp in Hp'. injection Hp' as <-.
  apply nth_error_enumerate in Hi.
  destruct (Forall2_In_l _ _ _ _ Hall Hi) as [ps [Hps Hpass]].
  unfold passage_predictions in Hpass. simpl in Hpass.
  rewrite Hr, Hrows in Hpass. simpl in Hpass.
  apply mapM_ok_Forall2 in Hpass.
  destruct (Forall2_In_l _ _ _ _ Hpass Hin) as [p [Hp_in Hp_ok]].
  exists p. split; [exact Hp_ok |].
  apply (Permutation_in _ Hperm).
  apply in_concat. exists ps. split; assumption.
Qed.


Lemma zip3_repeat {A B C : Type} (la : list A) (lb : list B) (c : C) (n : nat) :
  (length lb <= n)%nat ->
  zip3 la lb (repeat c n)
  = map (fun ab => (fst ab, snd ab, c)) (combine la lb).
Proof.
  revert lb n. induction la as [| a la IH]; intros lb n Hn; simpl.
  - reflexivity.
  - destruct lb as [| b lb]; [reflexivity |].
    destruct n as [| n]; simpl in *; [lia |].
    rewrite IH by lia. reflexivity.
Qed.

Lemma nth_error_combine {A B : Type} (la : list A) (lb : list B) (i : nat)
  (a : A) (b : B) :
  nth_error (combine la lb) i = Some (a, b) <->
  nth_error la i = Some a /\ nth_error lb i = Some b.
Proof.
  revert lb i. induction la as [| a' la IH]; intros lb i.
  - simpl. destruct i; split; [discriminate | intros [H _]; discriminate H
                             | discriminate | intros [H _]; discriminate H].
  - destruct lb as [| b' lb].
    + simpl. destruct i; split; try discriminate;
        intros [_ H]; discriminate H.
    + destruct i as [| i]; simpl.
      * split; [intros H; injection H as -> ->; split; reflexivity |].
        intros [H1 H2]. congruence.
      * apply IH.
Qed.

Lemma fan_out_shared (n : nat) (context : pyval) :
  context = PyNone \/ (exists text, context = PyStr text) ->
  _prediction_documents_iter_from_context (Z.of_nat n) context
  = Ok (repeat (shared_documents context) n).
Proof.
  intros [-> | [text ->]]; [apply fan_out_none | apply fan_out_str].
Qed.

(** C9. Without a context, or with one shared text, a logits row
    shorter than the list of answers is no error: the adapter returns a
    [QueryOutput] with as many predictions as the row has scores; they
    are, up to their order, the predictions of the scores paired with
    the answers of the same positions, each without a document or with
    the one document of the shared text, so that all of them are for one
    of the first answers; the answers past the row are dropped. *)
Theorem sequence_classification_truncates (answers : list string)
  (model_api_output context : pyval) (scores : list pyfloat) :
  (length scores < length answers)%nat ->
  context = PyNone \/ (exists text, context = PyStr text) ->
  logits_row model_api_output = Ok (PyList (map PyFloat scores)) ->
  exists q,
    from_sequence_classification answers model_api_output context = Ok q /\
    length (predictions q) = length scores /\
    (forall p, In p (predictions q) ->
       In (output (prediction_output p)) (firstn (length scores) answers)) /\
    Permutation
      (map (fun sa => sc_prediction (fst sa, snd sa, shared_documents context))
           (combine scores answers))
      (predictions q) /\
    (forall i score answer,
       nth_error scores i = Some score ->
       nth_error answers i = Some answer ->
       In {| prediction_score := score;
             prediction_output := {| output := answer; output_score := score |};
             prediction_documents := shared_documents context |}
          (predictions q)) /\
    (forall p, In p (predictions q) ->
       exists i score answer,
         nth_error scores i = Some score /\
         nth_error answers i = Some answer /\
         p = {| prediction_score := score;
                prediction_output :=
                  {| output := answer; output_score := score |};
                prediction_documents := shared_documents context |}).
Proof.
  intros Hlen Hctx Hrow.
  pose proof (fan_out_shared (length answers) context Hctx) as Hdocs.
  destruct (from_sequence_classification_typed _ _ _ _ _ Hdocs Hrow)
    as [q [Hq [Hperm _]]].
  rewrite zip3_repeat in Hperm by lia. rewrite map_map in Hperm.
  cbn [sc_prediction] in Hperm.
  assert (Hback : forall p, In p (predictions q) ->
            exists i score answer,
              nth_error scores i = Some score /\
              nth_error answers i = Some answer /\
              p = {| prediction_score := score;
                     prediction_output :=
                       {| output := answer; output_score := score |};
                     prediction_documents := shared_documents context |}).
  { intros p Hp.
    apply (Permutation_in _ (Permutation_sym Hperm)) in Hp.
    apply in_map_iff in Hp. destruct Hp as [[s a] [<- Hin]].
    apply In_nth_error in Hin. destruct Hin as [i Hi].
    apply nth_error_combine in Hi. destruct Hi as [Hs Ha].
    exists i, s, a. split; [exact Hs | split; [exact Ha | reflexivity]]. }
  exists q. split; [exact Hq |].
  split; [| split; [| split; [| split]]].
  - rewrite <- (Permutation_length Hperm), length_map, length_combine. lia.
  - intros p Hp. destruct (Hback p Hp) as [i [s [a [Hs [Ha ->]]]]]. simpl.
    assert (Hi : (i < length scores)%nat)
      by (apply nth_error_Some; congruence).
    apply nth_error_In with (n := i).
    rewrite nth_error_firstn.
    destruct (i <? length scores)%nat eqn:E; [exact Ha |].
    apply Nat.ltb_ge in E. lia.
  - exact Hperm.
  - intros i score answer Hs Ha.
    apply (Permutation_in _ Hperm).
    apply in_map_iff. exists (score, answer). split; [reflexivity |].
    apply nth_error_In with (n := i). apply nth_error_combine.
    split; assumption.
  - exact Hback.
Qed.

(** C6. For every candidate answer record of the payload of a
    successful call, the output holds the prediction of that record: its
    text is the placeholder "No answer found." when the answer text of
    the record is empty and the answer text otherwise, and its
    [prediction_score] and the [output_score] of its output are both the
    score of the record. *)
Theorem question_answering_text_and_scores
  (model_api_output context context_score : pyval) (q : QueryOutput)
  (i : nat) (doc score record : pyval) :
  from_question_answering model_api_output context context_score = Ok q ->
  qa_record model_api_output context context_score i doc score record ->
  exists p,
    answer_prediction doc score record = Ok p /\
    In p (predictions q) /\
    (forall answer, getitem_str record "answer" = Ok (PyStr answer) ->
       output (prediction_output p)
       = if String.eqb answer "" then "No answer found." else answer) /\
    (forall s, getitem_str record "score" = Ok (PyFloat s) ->
       prediction_score p = s /\ output_score (prediction_output p) = s).
Proof.
  intros Hq Hrec.
  destruct (qa_record_prediction _ _ _ _ _ _ _ _ Hq Hrec) as [p [Hp Hin]].
  exists p. split; [exact Hp | split; [exact Hin |]].
  apply (answer_prediction_output _ _ _ _ Hp).
Qed.

Lemma getitem_int_nth (l : list pyval) (i : nat) (x : pyval) :
  nth_error l i = Some x -> getitem_int (PyList l) (Z.of_nat i) = Ok x.
Proof.
  intros H. unfold getitem_int, nth_index.
  destruct (0 <=? Z.of_nat i) eqn:E; [| apply Z.leb_gt in E; lia].
  rewrite Nat2Z.id, H. reflexivity.
Qed.

Lemma enumerate_cons {A : Type} (x : A) (l : list A) :
  exists rest, enumerate (x :: l) = (0%nat, x) :: rest.
Proof. unfold enumerate. simpl. eexists. reflexivity. Qed.



End Claims.


(** * Further properties of the code *)

Section Further.

Context {pydantic : FieldCoercion} {long_lists : MergePhase}.

(** X1. The validator is idempotent: the predictions of a [QueryOutput]
    are left as they are when sorted again, and building a [QueryOutput]
    from them gives the same [QueryOutput] back. *)
Theorem query_output_rebuild (q : QueryOutput) :
  constructed q ->
  sort_predictions (predictions q) = Ok (predictions q) /\
  QueryOutput_init (predictions q) = Ok q.
Proof.
  intros H. destruct (constructed_sorted q H) as [v Hv].
  pose proof (sort_predictions_again _ _ Hv) as Hs.
  split; [exact Hs |].
  apply QueryOutput_init_sort, Hs.
Qed.

(** X2. The validator never raises on a list of predictions, and it
    neither drops nor repeats one: the predictions of the [QueryOutput]
    are a permutation of the list it is built from. *)
Theorem query_output_keeps_predictions (v : list Prediction) :
  exists q,
    QueryOutput_init v = Ok q /\
    Permutation v (predictions q) /\
    length (predictions q) = length v.
Proof.
  destruct (QueryOutput_init_spec v) as [q [Hq [Hp _]]].
  exists q. split; [exact Hq | split; [exact Hp |]].
  symmetry. apply Permutation_length, Hp.
Qed.

(** X3. The sort is stable when no key holds NaN: the predictions
    whose key equals a given key stand in the [QueryOutput] in the order
    they had in the list it is built from. *)
Theorem query_output_stable (v : list Prediction) (q : QueryOutput)
  (k : pyfloat * pyfloat) :
  QueryOutput_init v = Ok q ->
  Forall no_nan v ->
  filter (fun p => key_eqb (rank_key p) k) (predictions q)
  = filter (fun p => key_eqb (rank_key p) k) v.
Proof.
  intros H Hn. apply QueryOutput_init_sort in H.
  apply sort_predictions_filter; assumption.
Qed.

(** X4. In a [QueryOutput] none of whose keys holds NaN, a prediction
    with a strictly lower key stands strictly later: a lower score of the
    first document (or 1 without a document) decides whatever the
    prediction scores are, and on equal first components the lower
    prediction score. *)
Theorem lower_key_ranks_later (q : QueryOutput) (i j : nat)
  (p_low p_high : Prediction) :
  constructed q ->
  Forall no_nan (predictions q) ->
  nth_error (predictions q) i = Some p_low ->
  nth_error (predictions q) j = Some p_high ->
  key_lt (rank_key p_low) (rank_key p_high) ->
  (j < i)%nat.
Proof.
  intros H Hn Hi Hj Hlt.
  pose proof (constructed_ranked q H Hn) as Hr.
  apply lex_ltb_lt in Hlt.
  destruct (Nat.lt_trichotomy j i) as [Hji | [Heq | Hij]].
  - exact Hji.
  - exfalso. subst j. rewrite Hi in Hj. injection Hj as <-.
    pose proof (lex_ltb_asym _ _ Hlt) as Hge. congruence.
  - exfalso.
    pose proof (StronglySorted_nth _ _ _ _ _ _ Hr Hi Hj Hij) as Hge.
    apply key_ge_not_lt in Hge. congruence.
Qed.

(** ** The sequence-classification adapter, continued *)

Lemma zip3_firstn {A B C : Type} (la : list A) (lb : list B) (lc : list C) :
  zip3 (firstn (length lb) la) lb lc = zip3 la lb lc.
Proof.
  revert lb lc. induction la as [| a la IH]; intros lb lc.
  - rewrite firstn_nil. reflexivity.
  - destruct lb as [| b lb]; simpl; [reflexivity |].
    destruct lc as [| c lc]; [reflexivity |].
    rewrite IH. reflexivity.
Qed.

Lemma In_zip3_r {A B C : Type} (la : list A) (lb : list B) (lc : list C)
  (a : A) (b : B) (c : C) :
  In (a, b, c) (zip3 la lb lc) -> In c lc.
Proof.
  revert lb lc. induction la as [| a' la IH]; intros lb lc H; simpl in H.
  - contradiction.
  - destruct lb as [| b' lb]; [contradiction |].
    destruct lc as [| c' lc]; [contradiction |].
    destruct H as [H | H].
    + injection H as _ _ <-. left. reflexivity.
    + right. apply (IH lb lc H).
Qed.

Lemma PredictionDocument_init_document_only (c : pyval) (d : PredictionDocument) :
  PredictionDocument_init [("document", c)] = Ok d ->
  exists text, d = plain_document text.
Proof.
  unfold PredictionDocument_init, field_default, field_required. simpl.
  destruct (to_str c) as [text |]; simpl; [| discriminate].
  intros H. injection H as <-. exists text. reflexivity.
Qed.

Lemma mapM_ok_Forall {A B : Type} (f : A -> result B) (P : B -> Prop)
  (l : list A) (r : list B) :
  (forall x y, In x l -> f x = Ok y -> P y) -> mapM f l = Ok r -> Forall P r.
Proof.
  intros HP H. apply mapM_ok_Forall2 in H.
  induction H as [| x y l r Hxy _ IH]; constructor.
  - apply (HP x y); [left; reflexivity | exact Hxy].
  - apply IH. intros x' y' Hx'. apply HP. right. exact Hx'.
Qed.

(** The helper returns either no document for any answer or one plain
    document for each. *)
Lemma fan_out_uniform (n : Z) (context : pyval)
  (docs : list (list PredictionDocument)) :
  _prediction_documents_iter_from_context n context = Ok docs ->
  Forall (fun ds => ds = []) docs \/
  Forall (fun ds => exists text, ds = [plain_document text]) docs.
Proof.
  destruct context; simpl; try discriminate.
  - intros H. injection H as <-. left.
    apply Forall_forall. intros ds Hds.
    apply in_map_iff in Hds. destruct Hds as [_ [<- _]]. reflexivity.
  - intros H. right. revert H. apply mapM_ok_Forall.
    intros _ ds _ Hds.
    apply bind_ok_inv in Hds. destruct Hds as [d [Hd Hds]]. injection Hds as <-.
    destruct (PredictionDocument_init_document_only _ _ Hd) as [text ->].
    exists text. reflexivity.
  - destruct (negb _); [discriminate |].
    intros H. right. revert H. apply mapM_ok_Forall.
    intros c ds _ Hds.
    apply bind_ok_inv in Hds. destruct Hds as [d [Hd Hds]]. injection Hds as <-.
    destruct (PredictionDocument_init_document_only _ _ Hd) as [text ->].
    exists text. reflexivity.
Qed.

Lemma sequence_prediction_documents (t : pyval * string * list PredictionDocument)
  (p : Prediction) :
  sequence_prediction t = Ok p -> prediction_documents p = snd t.
Proof.
  destruct t as [[s a] ds]. unfold sequence_prediction, Prediction_init.
  intros H.
  apply bind_ok_inv in H. destruct H as [o [_ H]].
  apply bind_ok_inv in H. destruct H as [x [_ H]].
  injection H as <-. reflexivity.
Qed.

(** X5. With float scores and a context the helper accepts, the adapter
    returns as many predictions as the shorter of the logits row and the
    list of answers has entries. *)
Theorem sequence_classification_count (answers : list string)
  (model_api_output context : pyval) (scores : list pyfloat)
  (docs : list (list PredictionDocument)) :
  _prediction_documents_iter_from_context (Z.of_nat (length answers)) context
    = Ok docs ->
  logits_row model_api_output = Ok (PyList (map PyFloat scores)) ->
  exists q,
    from_sequence_classification answers model_api_output context = Ok q /\
    length (predictions q) = Nat.min (length scores) (length answers).
Proof.
  intros Hdocs Hrow.
  destruct (from_sequence_classification_typed _ _ _ _ _ Hdocs Hrow)
    as [q [Hq [Hperm _]]].
  exists q. split; [exact Hq |].
  rewrite <- (Permutation_length Hperm), length_map, length_zip3.
  apply fan_out_length in Hdocs. lia.
Qed.

(** X6. The adapter reads the logits row no further than there are
    answers: the entries past the last answer are not validated, and
    cutting them off changes nothing, neither the result nor the error. *)
Theorem sequence_classification_reads_prefix (answers : list string)
  (model_api_output model_api_output' context : pyval) (row : list pyval) :
  logits_row model_api_output = Ok (PyList row) ->
  logits_row model_api_output'
    = Ok (PyList (firstn (length answers) row)) ->
  from_sequence_classification answers model_api_output context
  = from_sequence_classification answers model_api_output' context.
Proof.
  intros Hrow Hrow'.
  rewrite !from_sequence_classification_unfold.
  destruct (_prediction_documents_iter_from_context _ _) as [docs | e]; simpl;
    [| reflexivity].
  rewrite Hrow, Hrow'. simpl. rewrite zip3_firstn. reflexivity.
Qed.

(** X7. Whatever the context, the predictions the adapter returns are
    in descending order of their prediction score when none of these
    scores is NaN: the helper gives every answer the same first key
    component (no document, or one document of score 0), so the
    prediction score alone decides. *)
Theorem sequence_classification_by_score (answers : list string)
  (model_api_output context : pyval) (q : QueryOutput) :
  from_sequence_classification answers model_api_output context = Ok q ->
  Forall (fun p => is_finite (prediction_score p)) (predictions q) ->
  StronglySorted by_score (predictions q).
Proof.
  intros H Hfin.
  pose proof (constructed_sequence_classification _ _ _ _ H) as Hc.
  rewrite from_sequence_classification_unfold in H.
  apply bind_ok_inv in H. destruct H as [docs [Hdocs H]].
  apply bind_ok_inv in H. destruct H as [row [_ H]].
  apply bind_ok_inv in H. destruct H as [scores [_ H]].
  apply bind_ok_inv in H. destruct H as [preds [Hpreds H]].
  apply QueryOutput_init_ok in H. destruct H as [Hperm _].
  assert (Hin : Forall (fun p => In (prediction_documents p) docs) preds).
  { revert Hpreds. apply mapM_ok_Forall.
    intros [[s a] ds] p Ht Hp.
    rewrite (sequence_prediction_documents _ _ Hp). simpl.
    apply (In_zip3_r _ _ _ _ _ _ Ht). }
  assert (Hin' : Forall (fun p => In (prediction_documents p) docs) (predictions q)).
  { rewrite Forall_forall in *. intros p Hp.
    apply Hin, (Permutation_in _ (Permutation_sym Hperm)), Hp. }
  destruct (fan_out_uniform _ _ _ Hdocs) as [Hu | Hu]; rewrite Forall_forall in Hu.
  - assert (Hd : Forall (fun p => prediction_documents p = []) (predictions q)).
    { revert Hin'. apply Forall_impl. intros p Hp. apply Hu, Hp. }
    assert (Hn : Forall no_nan (predictions q)).
    { rewrite Forall_forall in *. intros p Hp.
      unfold no_nan, finite_key, rank_key. rewrite (Hd p Hp).
      split; [exact I | apply Hfin, Hp]. }
    apply StronglySorted_weaken
      with (R := ranks_before) (P := fun p => prediction_documents p = []);
      [| exact Hd | exact (constructed_ranked q Hc Hn)].
    intros p1 p2 H1 H2. unfold ranks_before, key_ge, rank_key, by_score.
    rewrite H1, H2. simpl. intros [Hlt | [_ Hle]]; [lra | exact Hle].
  - assert (Hd : Forall (fun p => exists text,
                           prediction_documents p = [plain_document text])
                        (predictions q)).
    { revert Hin'. apply Forall_impl. intros p Hp. apply Hu, Hp. }
    assert (Hn : Forall no_nan (predictions q)).
    { rewrite Forall_forall in *. intros p Hp.
      destruct (Hd p Hp) as [text Ht].
      unfold no_nan, finite_key, rank_key. rewrite Ht.
      split; [exact I | apply Hfin, Hp]. }
    apply StronglySorted_weaken
      with (R := ranks_before)
           (P := fun p => exists text, prediction_documents p = [plain_document text]);
      [| exact Hd | exact (constructed_ranked q Hc Hn)].
    intros p1 p2 [t1 H1] [t2 H2].
    unfold ranks_before, key_ge, rank_key, by_score.
    rewrite H1, H2. simpl. intros [Hlt | [_ Hle]]; [lra | exact Hle].
Qed.

(** ** The question-answering adapter, continued *)

Lemma map_snd_enumerate {A : Type} (l : list A) : map snd (enumerate l) = l.
Proof.
  unfold enumerate. generalize 0%nat.
  induction l as [| a l IH]; intros k; simpl; [reflexivity |].
  rewrite IH. reflexivity.
Qed.

Lemma passage_predictions_rows (context context_score : pyval)
  (l : list (nat * pyval)) (preds : list (list Prediction)) :
  Forall2 (fun ia ps => passage_predictions context context_score ia = Ok ps)
          l preds ->
  exists rows,
    mapM py_iter (map snd l) = Ok rows /\
    length (concat preds) = length (concat rows).
Proof.
  induction 1 as [| ia ps l preds Hia _ [rows [Hrows Hlen]]]; simpl.
  - exists []. split; reflexivity.
  - unfold passage_predictions in Hia.
    apply bind_ok_inv in Hia. destruct Hia as [[doc score] [_ Hia]].
    apply bind_ok_inv in Hia. destruct Hia as [rws [Hrws Hia]].
    apply mapM_length in Hia.
    exists (rws :: rows). rewrite Hrws, Hrows. simpl.
    split; [reflexivity |].
    rewrite !length_app. congruence.
Qed.

Lemma getitem_int_out (l : list pyval) (i : nat) :
  nth_error l i = None -> getitem_int (PyList l) (Z.of_nat i) = Err IndexError.
Proof.
  intros H. unfold getitem_int, nth_index.
  destruct (0 <=? Z.of_nat i) eqn:E; [| apply Z.leb_gt in E; lia].
  rewrite Nat2Z.id, H. reflexivity.
Qed.

(** X8. The adapter flattens the passages: a successful call returns
    exactly one prediction per answer record, over all passages. *)
Theorem question_answering_count (model_api_output context context_score : pyval)
  (q : QueryOutput) :
  from_question_answering model_api_output context context_score = Ok q ->
  exists answers passages rows,
    getitem_str model_api_output "answers" = Ok answers /\
    py_iter answers = Ok passages /\
    mapM py_iter passages = Ok rows /\
    length (predictions q) = length (concat rows).
Proof.
  intros H. apply from_question_answering_ok in H.
  destruct H as [answers [passages [preds [Ha [Hp [Hall [Hperm _]]]]]]].
  destruct (passage_predictions_rows _ _ _ _ Hall) as [rows [Hrows Hlen]].
  rewrite map_snd_enumerate in Hrows.
  exists answers, passages, rows.
  split; [exact Ha | split; [exact Hp | split; [exact Hrows |]]].
  rewrite <- (Permutation_length Hperm). exact Hlen.
Qed.

(** X9. With a sequence for [context] and one for [context_score], the
    call fails when either is shorter than the payload has passages: the
    first passage without a partner raises an index error, and no
    [QueryOutput] is returned. *)
Theorem question_answering_context_too_short
  (model_api_output answers : pyval) (passages l s : list pyval) :
  getitem_str model_api_output "answers" = Ok answers ->
  py_iter answers = Ok passages ->
  (Nat.min (length l) (length s) < length passages)%nat ->
  resolve_context (Nat.min (length l) (length s)) (PyList l) (PyList s)
    = Err IndexError /\
  exists e,
    from_question_answering model_api_output (PyList l) (PyList s) = Err e.
Proof.
  intros Ha Hp Hlen.
  set (i := Nat.min (length l) (length s)) in *.
  assert (Hres : resolve_context i (PyList l) (PyList s) = Err IndexError).
  { unfold resolve_context.
    destruct (nth_error l i) as [d |] eqn:Hl.
    - rewrite (getitem_int_nth _ _ _ Hl). cbn [bind].
      rewrite getitem_int_out; [reflexivity |].
      apply nth_error_None.
      assert (i < length l)%nat by (apply nth_error_Some; congruence).
      unfold i in *. lia.
    - rewrite (getitem_int_out _ _ Hl). reflexivity. }
  split; [exact Hres |].
  destruct (nth_error passages i) as [passage |] eqn:Hi;
    [| apply nth_error_None in Hi; lia].
  apply nth_error_enumerate in Hi.
  unfold from_question_answering. rewrite Ha. cbn [bind]. rewrite Hp. cbn [bind].
  destruct (mapM_err (passage_predictions (PyList l) (PyList s)) _ _ IndexError Hi)
    as [e He].
  - unfold passage_predictions. cbn [fst]. rewrite Hres. reflexivity.
  - rewrite He. eexists. reflexivity.
Qed.

(** X10. The offsets of an answer record are read only when a document
    is attached: a record without "start" gives its prediction when the
    context text is empty, and a key error when it is not. *)
Theorem answer_offsets_only_with_context (m : list (string * pyval))
  (answer : string) (score : pyfloat) :
  assoc "answer" m = Some (PyStr answer) ->
  assoc "score" m = Some (PyFloat score) ->
  assoc "start" m = None ->
  (forall context_score,
     answer_prediction (PyStr "") context_score (PyDict m)
     = Ok {| prediction_score := score;
             prediction_output :=
               {| output := answer_text answer; output_score := score |};
             prediction_documents := [] |}) /\
  (forall c context_score, c <> "" ->
     answer_prediction (PyStr c) context_score (PyDict m) = Err KeyError).
Proof.
  intros Ha Hs Hst. split.
  - intros cs. apply answer_prediction_no_context; simpl.
    + rewrite Ha. reflexivity.
    + rewrite Hs. reflexivity.
  - intros c cs Hc. unfold answer_prediction. simpl.
    rewrite Ha, Hs. simpl.
    assert (Ho : PredictionOutput_init
                   (if negb (negb (String.eqb answer "")) then PyStr "No answer found."
                    else PyStr answer) (PyFloat score)
                 = Ok {| output := answer_text answer; output_score := score |}).
    { unfold answer_text. destruct (String.eqb answer ""); simpl;
        apply PredictionOutput_init_typed. }
    rewrite Ho. simpl.
    apply String.eqb_neq in Hc. rewrite Hc. simpl.
    rewrite Hst. reflexivity.
Qed.

(** X11. Every answer that Python counts as false gets the placeholder,
    not only the empty string: for a record of a successful call whose
    answer is [None], 0, an empty list or an empty mapping, the text of
    the prediction is "No answer found.". *)
Theorem falsy_answer_gets_placeholder
  (model_api_output context context_score : pyval) (q : QueryOutput)
  (i : nat) (doc score record answer : pyval) :
  from_question_answering model_api_output context context_score = Ok q ->
  qa_record model_api_output context context_score i doc score record ->
  getitem_str record "answer" = Ok answer ->
  py_truthy answer = false ->
  exists p,
    answer_prediction doc score record = Ok p /\
    In p (predictions q) /\
    output (prediction_output p) = "No answer found.".
Proof.
  intros Hq Hrec Hanswer Hfalse.
  destruct (qa_record_prediction _ _ _ _ _ _ _ _ Hq Hrec) as [p [Hp Hin]].
  exists p. split; [exact Hp | split; [exact Hin |]].
  unfold answer_prediction in Hp. rewrite Hanswer in Hp. cbn [bind] in Hp.
  rewrite Hfalse in Hp. cbn [negb] in Hp.
  apply bind_ok_inv in Hp. destruct Hp as [s [_ Hp]].
  apply bind_ok_inv in Hp. destruct Hp as [o [Ho Hp]].
  apply bind_ok_inv in Hp. destruct Hp as [docs [_ Hp]].
  unfold Prediction_init in Hp.
  apply bind_ok_inv in Hp. destruct Hp as [ps [_ Hp]].
  injection Hp as <-. simpl.
  unfold PredictionOutput_init in Ho. rewrite to_str_str in Ho. simpl in Ho.
  apply bind_ok_inv in Ho. destruct Ho as [os [_ Ho]].
  injection Ho as <-. reflexivity.
Qed.

Lemma rows_typed (c : string) (context_score : pyval) (rows : list qa_row) :
  mapM (answer_prediction (PyStr c) context_score) (map encode_row rows)
  = Ok (map (qa_prediction c) rows).
Proof.
  induction rows as [| [[[a s] st] en] rows IH]; simpl.
  - reflexivity.
  - rewrite (answer_prediction_typed c context_score _ a s st en)
      by reflexivity.
    cbn [bind]. rewrite IH. reflexivity.
Qed.

Lemma resolve_context_shared (i : nat) (context context_score : pyval)
  (c : string) :
  shared_text context = Some c ->
  exists score, resolve_context i context context_score = Ok (PyStr c, score).
Proof.
  destruct context; simpl; try discriminate; intros H; injection H as <-;
    eexists; reflexivity.
Qed.

Lemma passages_shared (context context_score : pyval) (c : string)
  (passages : list (list qa_row)) (k : nat) :
  shared_text context = Some c ->
  mapM (passage_predictions context context_score)
       (combine (seq k (length passages))
                (map PyList (map (map encode_row) passages)))
  = Ok (map (map (qa_prediction c)) passages).
Proof.
  intros Hc. revert k. induction passages as [| rows passages IH]; intros k; simpl.
  - reflexivity.
  - unfold passage_predictions at 1. cbn [fst snd].
    destruct (resolve_context_shared k _ context_score _ Hc) as [score ->].
    cbn [bind py_iter]. rewrite rows_typed. cbn [bind].
    rewrite IH. reflexivity.
Qed.

Lemma enumerate_typed (passages : list (list qa_row)) :
  enumerate (map PyList (map (map encode_row) passages))
  = combine (seq 0 (length passages))
            (map PyList (map (map encode_row) passages)).
Proof. unfold enumerate. rewrite !length_map. reflexivity. Qed.

(** X12. On a payload of typed records, with one shared context text
    or none, the adapter succeeds whatever [context_score] is, and its
    predictions are, up to their order, the predictions of all records of
    all passages, each with the shared text as its one document, or
    without a document when the text is empty or absent; they are in
    rank order when no key holds NaN. *)
Theorem question_answering_shared_context (passages : list (list qa_row))
  (context context_score : pyval) (c : string) :
  shared_text context = Some c ->
  exists q,
    from_question_answering (typed_payload passages) context context_score
      = Ok q /\
    Permutation (map (qa_prediction c) (concat passages)) (predictions q) /\
    (Forall no_nan (predictions q) -> ranked (predictions q)).
Proof.
  intros Hc. unfold from_question_answering, typed_payload, qa_payload.
  cbn [getitem_str assoc String.eqb Ascii.eqb Bool.eqb bind py_iter].
  rewrite enumerate_typed, (passages_shared _ _ c _ _ Hc). cbn [bind].
  rewrite <- concat_map.
  apply QueryOutput_init_spec.
Qed.

Lemma skipn_nth_error {A : Type} (l : list A) (k : nat) (x : A) :
  nth_error l k = Some x -> skipn k l = x :: skipn (S k) l.
Proof.
  revert l. induction k as [| k IH]; intros l H; destruct l as [| a l];
    try discriminate H.
  - injection H as ->. reflexivity.
  - simpl in H. change (skipn k l = x :: skipn (S k) l). apply IH, H.
Qed.

Lemma passages_paired (texts : list string) (scores : list pyval)
  (passages : list (list qa_row)) (k : nat) :
  (k + length passages <= length texts)%nat ->
  (k + length passages <= length scores)%nat ->
  mapM (passage_predictions (PyList (map PyStr texts)) (PyList scores))
       (combine (seq k (length passages))
                (map PyList (map (map encode_row) passages)))
  = Ok (paired_predictions (skipn k texts) passages).
Proof.
  revert k. induction passages as [| rows passages IH]; intros k Ht Hs; simpl.
  - unfold paired_predictions. rewrite combine_nil. reflexivity.
  - simpl in Ht, Hs.
    destruct (nth_error texts k) as [c |] eqn:Hc;
      [| apply nth_error_None in Hc; lia].
    destruct (nth_error scores k) as [score |] eqn:Hsc;
      [| apply nth_error_None in Hsc; lia].
    unfold passage_predictions at 1. cbn [fst snd].
    unfold resolve_context.
    rewrite (getitem_int_nth (map PyStr texts) k (PyStr c))
      by (rewrite nth_error_map, Hc; reflexivity).
    cbn [bind]. rewrite (getitem_int_nth _ _ _ Hsc).
    cbn [bind py_iter]. rewrite rows_typed. cbn [bind].
    rewrite IH by lia. cbn [bind].
    rewrite (skipn_nth_error _ _ _ Hc). reflexivity.
Qed.

(** X13. With one context text and one score per passage, passage [i]
    gets text [i]: on a payload of typed records the adapter succeeds as
    soon as both sequences are at least as long as the payload has
    passages, texts and scores past the last passage are ignored, and a
    passage whose text is empty gets no document; the predictions are in
    rank order when no key holds NaN. *)
Theorem question_answering_paired_contexts (passages : list (list qa_row))
  (texts : list string) (scores : list pyval) :
  (length passages <= length texts)%nat ->
  (length passages <= length scores)%nat ->
  exists q,
    from_question_answering (typed_payload passages)
      (PyList (map PyStr texts)) (PyList scores) = Ok q /\
    Permutation (concat (paired_predictions texts passages)) (predictions q) /\
    (Forall no_nan (predictions q) -> ranked (predictions q)).
Proof.
  intros Ht Hs. unfold from_question_answering, typed_payload, qa_payload.
  cbn [getitem_str assoc String.eqb Ascii.eqb Bool.eqb bind py_iter].
  rewrite enumerate_typed, (passages_paired texts scores passages 0) by lia.
  cbn [bind skipn].
  apply QueryOutput_init_spec.
Qed.

(** ** The ranking key and the payloads, continued *)

(** X14. The two branches of the key function do not agree on a first
    document without a score: for a mapping whose first document has no
    "document_score" entry the first key component is 1, while a
    [Prediction] whose first document has the default score 0 gets 0, so
    that the key of the [Prediction] is strictly below the key of the
    mapping with the same prediction score. *)
Theorem key_of_mapping_without_document_score (m first : list (string * pyval))
  (rest : list pyval) (score : pyfloat) (p : Prediction) (d : PredictionDocument)
  (ds : list PredictionDocument) :
  assoc "prediction_score" m = Some (PyFloat score) ->
  assoc "prediction_documents" m = Some (PyList (PyDict first :: rest)) ->
  assoc "document_score" first = None ->
  prediction_score p = score ->
  prediction_documents p = d :: ds ->
  float_eq (document_score d) 0 ->
  sort_predictions_key (OfValue (PyDict m)) = Ok (PyInt 1, PyFloat score) /\
  sort_predictions_key (OfPrediction p)
    = Ok (PyFloat (document_score d), PyFloat score) /\
  tuple_lt (PyFloat (document_score d), PyFloat score) (PyInt 1, PyFloat score)
    = Ok true.
Proof.
  intros Hs Hd Hf Hp Hdocs Hzero.
  split; [| split].
  - simpl. rewrite Hs, Hd. simpl. rewrite Hf. reflexivity.
  - simpl. rewrite Hp, Hdocs. reflexivity.
  - rewrite (tuple_lt_number _ _ (document_score d, score) (Finite 1, score))
      by reflexivity.
    f_equal. apply lex_ltb_lt. left. cbn [fst].
    destruct (document_score d) as [x | ?]; simpl in *; [lra | contradiction].
Qed.

(** X15. The errors of the payload path, for a context the helper
    accepts: a payload that is no mapping is a type error, a mapping
    without "model_outputs" a key error, an empty "logits" list an index
    error, and a flat "logits" list, whose first entry is a number and
    not a row, a type error. *)
Theorem sequence_classification_payload_errors (answers : list string)
  (context : pyval) (docs : list (list PredictionDocument)) :
  _prediction_documents_iter_from_context (Z.of_nat (length answers)) context
    = Ok docs ->
  (forall model_api_output, is_dict model_api_output = false ->
     from_sequence_classification answers model_api_output context
     = Err TypeError) /\
  (forall m, assoc "model_outputs" m = None ->
     from_sequence_classification answers (PyDict m) context = Err KeyError) /\
  (forall m mo,
     assoc "model_outputs" m = Some (PyDict mo) ->
     assoc "logits" mo = Some (PyList []) ->
     from_sequence_classification answers (PyDict m) context = Err IndexError) /\
  (forall m mo x rest,
     assoc "model_outputs" m = Some (PyDict mo) ->
     assoc "logits" mo = Some (PyList (PyFloat x :: rest)) ->
     from_sequence_classification answers (PyDict m) context = Err TypeError).
Proof.
  intros Hdocs. unfold from_sequence_classification. rewrite Hdocs. cbn [bind].
  split; [| split; [| split]].
  - intros payload Hp. destruct payload; try reflexivity. discriminate Hp.
  - intros m Hm. simpl. rewrite Hm. reflexivity.
  - intros m mo Hm Hl. simpl. rewrite Hm. simpl. rewrite Hl. reflexivity.
  - intros m mo x rest Hm Hl. simpl. rewrite Hm. simpl. rewrite Hl. reflexivity.
Qed.

Lemma answer_prediction_documents (c : string) (context_score record : pyval)
  (p : Prediction) :
  answer_prediction (PyStr c) context_score record = Ok p ->
  (String.eqb c "" = true /\ prediction_documents p = []) \/
  (String.eqb c "" = false /\
   exists d, prediction_documents p = [d] /\ document_score d = Finite 0).
Proof.
  unfold answer_prediction. intros H.
  apply bind_ok_inv in H. destruct H as [a [_ H]].
  apply bind_ok_inv in H. destruct H as [s [_ H]].
  apply bind_ok_inv in H. destruct H as [o [_ H]].
  apply bind_ok_inv in H. destruct H as [docs [Hdocs H]].
  unfold Prediction_init in H.
  apply bind_ok_inv in H. destruct H as [ps [_ H]].
  injection H as <-. simpl.
  simpl in Hdocs. destruct (String.eqb c "") eqn:Hc; simpl in Hdocs.
  - left. injection Hdocs as <-. split; reflexivity.
  - right. split; [reflexivity |].
    apply bind_ok_inv in Hdocs. destruct Hdocs as [st [_ Hdocs]].
    apply bind_ok_inv in Hdocs. destruct Hdocs as [en [_ Hdocs]].
    apply bind_ok_inv in Hdocs. destruct Hdocs as [d [Hd Hdocs]].
    injection Hdocs as <-. exists d. split; [reflexivity |].
    unfold PredictionDocument_init, field_default, field_required in Hd.
    simpl in Hd. rewrite to_str_str in Hd. simpl in Hd.
    apply bind_ok_inv in Hd. destruct Hd as [sp [_ Hd]].
    injection Hd as <-. reflexivity.
Qed.

(** X16. With one shared context text or none, the predictions the
    question-answering adapter returns are in descending order of their
    prediction score when none of these scores is NaN: all of them have
    the same first key component, so the prediction score alone
    decides. *)
Theorem question_answering_by_score
  (model_api_output context context_score : pyval) (c : string)
  (q : QueryOutput) :
  shared_text context = Some c ->
  from_question_answering model_api_output context context_score = Ok q ->
  Forall (fun p => is_finite (prediction_score p)) (predictions q) ->
  StronglySorted by_score (predictions q).
Proof.
  intros Hc H Hfin.
  pose proof (constructed_question_answering _ _ _ _ H) as Hcons.
  apply from_question_answering_ok in H.
  destruct H as [answers [passages [preds [_ [_ [Hall [Hperm _]]]]]]].
  assert (Hdocs : forall p, In p (predictions q) ->
            exists sc record, answer_prediction (PyStr c) sc record = Ok p).
  { intros p Hp.
    apply (Permutation_in _ (Permutation_sym Hperm)) in Hp.
    apply in_concat in Hp. destruct Hp as [ps [Hps Hp]].
    clear Hperm Hcons Hfin.
    induction Hall as [| ia ps' ? ? Hia _ IH]; [contradiction |].
    destruct Hps as [-> | Hps]; [| apply IH, Hps].
    unfold passage_predictions in Hia.
    destruct (resolve_context_shared (fst ia) _ context_score _ Hc) as [sc Hres].
    rewrite Hres in Hia. cbn [bind] in Hia.
    apply bind_ok_inv in Hia. destruct Hia as [rows [_ Hia]].
    apply mapM_ok_Forall2 in Hia.
    clear - Hia Hp. induction Hia as [| r p' ? ? Hr _ IH]; [contradiction |].
    destruct Hp as [-> | Hp]; [| apply IH, Hp].
    exists sc, r. exact Hr. }
  destruct (String.eqb c "") eqn:Hempty.
  - assert (Hd : Forall (fun p => prediction_documents p = []) (predictions q)).
    { apply Forall_forall. intros p Hp.
      destruct (Hdocs p Hp) as [sc [record Hrec]].
      destruct (answer_prediction_documents _ _ _ _ Hrec) as [[_ Hd] | [Hd _]];
        [exact Hd | congruence]. }
    assert (Hn : Forall no_nan (predictions q)).
    { rewrite Forall_forall in *. intros p Hp.
      unfold no_nan, finite_key, rank_key. rewrite (Hd p Hp).
      split; [exact I | apply Hfin, Hp]. }
    apply StronglySorted_weaken
      with (R := ranks_before) (P := fun p => prediction_documents p = []);
      [| exact Hd | exact (constructed_ranked q Hcons Hn)].
    intros p1 p2 H1 H2. unfold ranks_before, key_ge, rank_key, by_score.
    rewrite H1, H2. simpl. intros [Hlt | [_ Hle]]; [lra | exact Hle].
  - assert (Hd : Forall (fun p => exists d, prediction_documents p = [d] /\
                                          document_score d = Finite 0)
                        (predictions q)).
    { apply Forall_forall. intros p Hp.
      destruct (Hdocs p Hp) as [sc [record Hrec]].
      destruct (answer_prediction_documents _ _ _ _ Hrec) as [[Hd _] | [_ Hd]];
        [congruence | exact Hd]. }
    assert (Hn : Forall no_nan (predictions q)).
    { rewrite Forall_forall in *. intros p Hp.
      destruct (Hd p Hp) as [d [Hpd Hz]].
      unfold no_nan, finite_key, rank_key. rewrite Hpd, Hz.
      split; [exact I | apply Hfin, Hp]. }
    apply StronglySorted_weaken
      with (R := ranks_before)
           (P := fun p => exists d, prediction_documents p = [d] /\
                                    document_score d = Finite 0);
      [| exact Hd | exact (constructed_ranked q Hcons Hn)].
    intros p1 p2 [d1 [H1 Hz1]] [d2 [H2 Hz2]].
    unfold ranks_before, key_ge, rank_key, by_score.
    rewrite H1, H2. simpl. rewrite Hz1, Hz2. simpl.
    intros [Hlt | [_ Hle]]; [lra | exact Hle].
Qed.

Lemma Sorted_adjacent {A : Type} (R : A -> A -> Prop) (l1 l2 : list A)
  (x y : A) :
  Sorted R (l1 ++ x :: y :: l2) -> R x y.
Proof.
  induction l1 as [| a l1 IH]; simpl; intros H;
    inversion H as [| ? ? Hs Hhd]; subst.
  - inversion Hhd; subst. assumption.
  - apply IH, Hs.
Qed.

(** X17. Whatever the scores are, NaN included, no prediction of a
    [QueryOutput] has a key below the key of the prediction that follows
    it: [<] answers false on the two keys. *)
Theorem query_output_never_rising (q : QueryOutput) :
  constructed q ->
  forall l1 p1 p2 l2,
    predictions q = (l1 ++ p1 :: p2 :: l2)%list ->
    exists k1 k2,
      sort_predictions_key (OfPrediction p1) = Ok k1 /\
      sort_predictions_key (OfPrediction p2) = Ok k2 /\
      tuple_lt k1 k2 = Ok false.
Proof.
  intros H l1 p1 p2 l2 Hq.
  pose proof (constructed_never_rising q H) as Hr.
  unfold never_rising in Hr. rewrite Hq in Hr.
  apply Sorted_adjacent in Hr.
  exists (instance_key p1), (instance_key p2).
  split; [reflexivity | split; [reflexivity |]].
  rewrite (tuple_lt_number _ _ _ _ (num_key_instance p1) (num_key_instance p2)).
  f_equal. exact Hr.
Qed.

End Further.

(** * The scenarios

    Each property above, run at a concrete input with the strict
    coercion and the one-run merge. *)

#[local] Existing Instance one_run_merge.





(** The empty mapping is neither a [Prediction] nor the equivalent
    mapping of one, and the key function answers it with a key error. *)
Lemma sort_predictions_key_empty_mapping :
  sort_predictions_key (OfValue (PyDict [])) = Err KeyError /\
  ~ (forall o : pyobj,
       (forall p, o <> OfPrediction p) ->
       (forall p, o <> OfValue (Prediction_dict p)) ->
       sort_predictions_key o = Err TypeError).
Proof.
  split; [reflexivity |].
  intros H. specialize (H (OfValue (PyDict []))).
  assert (E : sort_predictions_key (OfValue (PyDict [])) = Err TypeError).
  { apply H; intros p; discriminate. }
  discriminate E.
Qed.

Lemma sort_predictions_key_cases_witness :
  (is_dict (PyStr "yes") = false /\
   sort_predictions_key (OfValue (PyStr "yes")) = Err TypeError) /\
  (assoc "prediction_score" [("prediction_score", PyFloat (1 # 2))] = Some (PyFloat (1 # 2)) /\
   assoc "prediction_documents" [("prediction_score", PyFloat (1 # 2))] = None /\
   sort_predictions_key (OfValue (PyDict [("prediction_score", PyFloat (1 # 2))]))
   = Err KeyError).
Proof.
  destruct sort_predictions_key_cases as [_ [_ [_ [_ [Htype Hkey]]]]].
  split.
  - split; [reflexivity | exact (Htype (PyStr "yes") eq_refl)].
  - split; [reflexivity | split; [reflexivity |]].
    exact (Hkey [("prediction_score", PyFloat (1 # 2))] (or_intror eq_refl)).
Defined.

Lemma fan_out_per_answer_witness :
  (length ["a"; "b"; "c"] = 3%nat /\
   _prediction_documents_iter_from_context (pydantic := strict_coercion) 3
     (PyList [PyStr "a"; PyStr "b"; PyStr "c"])
   = Ok [[plain_document "a"]; [plain_document "b"]; [plain_document "c"]]) /\
  (length [PyStr "a"; PyStr "b"] <> 3%nat /\
   _prediction_documents_iter_from_context (pydantic := strict_coercion) 3
     (PyList [PyStr "a"; PyStr "b"])
   = Err ValueError).
Proof.
  destruct (fan_out_per_answer (pydantic := strict_coercion) 3)
    as [_ [_ [Hlist [Hlen _]]]].
  split.
  - split; [reflexivity | exact (Hlist ["a"; "b"; "c"] eq_refl)].
  - assert (Hne : length [PyStr "a"; PyStr "b"] <> 3%nat) by discriminate.
    split; [exact Hne | exact (Hlen _ Hne)].
Defined.


Lemma sequence_classification_truncates_witness :
  let scores := floats [9 # 10; 1 # 10]%Q in
  let answers := ["yes"; "no"; "maybe"] in
  (length scores < length answers)%nat /\
  (PyStr "doc" = PyNone \/ (exists text, PyStr "doc" = PyStr text)) /\
  logits_row (sc_payload scores) = Ok (PyList (map PyFloat scores)) /\
  exists q,
    from_sequence_classification (pydantic := strict_coercion)
      answers (sc_payload scores) (PyStr "doc") = Ok q /\
    length (predictions q) = length scores /\
    (forall p, In p (predictions q) ->
       In (output (prediction_output p)) (firstn (length scores) answers)) /\
    Permutation
      (map (fun sa => sc_prediction
                        (fst sa, snd sa, shared_documents (PyStr "doc")))
           (combine scores answers))
      (predictions q) /\
    (forall i score answer,
       nth_error scores i = Some score ->
       nth_error answers i = Some answer ->
       In {| prediction_score := score;
             prediction_output := {| output := answer; output_score := score |};
             prediction_documents := shared_documents (PyStr "doc") |}
          (predictions q)) /\
    (forall p, In p (predictions q) ->
       exists i score answer,
         nth_error scores i = Some score /\
         nth_error answers i = Some answer /\
         p = {| prediction_score := score;
                prediction_output :=
                  {| output := answer; output_score := score |};
                prediction_documents := shared_documents (PyStr "doc") |}).
Proof.
  assert (Hlen : (length (floats [9 # 10; 1 # 10]%Q)
                  < length ["yes"; "no"; "maybe"])%nat)
    by (simpl; lia).
  assert (Hctx : PyStr "doc" = PyNone \/ (exists text, PyStr "doc" = PyStr text))
    by (right; exists "doc"; reflexivity).
  split; [exact Hlen | split; [exact Hctx | split; [reflexivity |]]].
  exact (sequence_classification_truncates (pydantic := strict_coercion)
           ["yes"; "no"; "maybe"] (sc_payload (floats [9 # 10; 1 # 10]%Q))
           (PyStr "doc") (floats [9 # 10; 1 # 10]%Q) Hlen Hctx eq_refl).
Defined.

Lemma qa_record_scenario :
  qa_record (qa_payload [[record "" (1 # 2) 0 0]]) (PyStr "ctx") (PyInt 1)
    0 (PyStr "ctx") (PyInt 1) (record "" (1 # 2) 0 0).
Proof.
  exists (PyList [PyList [record "" (1 # 2) 0 0]]),
         [PyList [record "" (1 # 2) 0 0]],
         (PyList [record "" (1 # 2) 0 0]),
         [record "" (1 # 2) 0 0].
  repeat split; try reflexivity. left. reflexivity.
Defined.

Lemma question_answering_text_and_scores_witness :
  let payload := qa_payload [[record "" (1 # 2) 0 0]] in
  let q := {| predictions :=
                [backed "No answer found." (1 # 2) (span_document "ctx" 0 0)] |} in
  from_question_answering (pydantic := strict_coercion)
    payload (PyStr "ctx") (PyInt 1) = Ok q /\
  qa_record payload (PyStr "ctx") (PyInt 1) 0 (PyStr "ctx") (PyInt 1)
    (record "" (1 # 2) 0 0) /\
  exists p,
    answer_prediction (pydantic := strict_coercion)
      (PyStr "ctx") (PyInt 1) (record "" (1 # 2) 0 0) = Ok p /\
    In p (predictions q) /\
    (forall answer,
       getitem_str (record "" (1 # 2) 0 0) "answer" = Ok (PyStr answer) ->
       output (prediction_output p)
       = if String.eqb answer "" then "No answer found." else answer) /\
    (forall s,
       getitem_str (record "" (1 # 2) 0 0) "score" = Ok (PyFloat s) ->
       prediction_score p = s /\ output_score (prediction_output p) = s).
Proof.
  split; [reflexivity | split; [exact qa_record_scenario |]].
  exact (question_answering_text_and_scores (pydantic := strict_coercion)
           (qa_payload [[record "" (1 # 2) 0 0]]) (PyStr "ctx") (PyInt 1)
           {| predictions :=
                [backed "No answer found." (1 # 2) (span_document "ctx" 0 0)] |}
           0%nat (PyStr "ctx") (PyInt 1) (record "" (1 # 2) 0 0)
           eq_refl qa_record_scenario).
Defined.





(** ** The further properties at concrete inputs *)

Lemma query_output_rebuild_witness :
  let q := {| predictions := [bare "no" (9 # 10); bare "yes" (1 # 10)] |} in
  constructed (pydantic := strict_coercion) q /\
  sort_predictions (predictions q) = Ok (predictions q) /\
  QueryOutput_init (predictions q) = Ok q.
Proof.
  assert (H : constructed (pydantic := strict_coercion)
                {| predictions := [bare "no" (9 # 10); bare "yes" (1 # 10)] |}).
  { apply constructed_direct
      with (v := [bare "yes" (1 # 10); bare "no" (9 # 10)]).
    reflexivity. }
  split; [exact H | exact (query_output_rebuild _ H)].
Defined.

Lemma query_output_stable_witness :
  let v := [bare "a" (1 # 2); bare "b" (1 # 2); bare "c" (9 # 10)] in
  let q := {| predictions := [bare "c" (9 # 10); bare "a" (1 # 2); bare "b" (1 # 2)] |} in
  QueryOutput_init v = Ok q /\
  Forall no_nan v /\
  filter (fun p => key_eqb (rank_key p) (Finite 1, Finite (1 # 2))) (predictions q)
  = filter (fun p => key_eqb (rank_key p) (Finite 1, Finite (1 # 2))) v.
Proof.
  assert (Hn : Forall no_nan
                 [bare "a" (1 # 2); bare "b" (1 # 2); bare "c" (9 # 10)])
    by (repeat constructor).
  split; [reflexivity | split; [exact Hn |]].
  exact (query_output_stable
           [bare "a" (1 # 2); bare "b" (1 # 2); bare "c" (9 # 10)]
           {| predictions := [bare "c" (9 # 10); bare "a" (1 # 2); bare "b" (1 # 2)] |}
           (Finite 1, Finite (1 # 2)) eq_refl Hn).
Defined.

Lemma lower_key_ranks_later_witness :
  let q := {| predictions := [bare "no" (9 # 10); bare "yes" (1 # 10)] |} in
  constructed (pydantic := strict_coercion) q /\
  Forall no_nan (predictions q) /\
  nth_error (predictions q) 1 = Some (bare "yes" (1 # 10)) /\
  nth_error (predictions q) 0 = Some (bare "no" (9 # 10)) /\
  key_lt (rank_key (bare "yes" (1 # 10))) (rank_key (bare "no" (9 # 10))) /\
  (0 < 1)%nat.
Proof.
  assert (H : constructed (pydantic := strict_coercion)
                {| predictions := [bare "no" (9 # 10); bare "yes" (1 # 10)] |}).
  { apply constructed_direct
      with (v := [bare "yes" (1 # 10); bare "no" (9 # 10)]).
    reflexivity. }
  assert (Hn : Forall no_nan [bare "no" (9 # 10); bare "yes" (1 # 10)])
    by (repeat constructor).
  assert (Hlt : key_lt (rank_key (bare "yes" (1 # 10)))
                       (rank_key (bare "no" (9 # 10)))).
  { right. split; reflexivity. }
  split; [exact H | split; [exact Hn |
    split; [reflexivity | split; [reflexivity | split]]]].
  - exact Hlt.
  - exact (lower_key_ranks_later _ 1%nat 0%nat _ _ H Hn eq_refl eq_refl Hlt).
Defined.

Lemma sequence_classification_count_witness :
  let answers := ["yes"; "no"; "maybe"] in
  let docs := [[plain_document "a"]; [plain_document "b"]; [plain_document "c"]] in
  _prediction_documents_iter_from_context (pydantic := strict_coercion)
    (Z.of_nat (length answers)) (PyList [PyStr "a"; PyStr "b"; PyStr "c"])
    = Ok docs /\
  logits_row (sc_payload (floats [9 # 10; 1 # 10]%Q))
    = Ok (PyList (map PyFloat (floats [9 # 10; 1 # 10]%Q))) /\
  exists q,
    from_sequence_classification (pydantic := strict_coercion) answers
      (sc_payload (floats [9 # 10; 1 # 10]%Q)) (PyList [PyStr "a"; PyStr "b"; PyStr "c"])
      = Ok q /\
    length (predictions q) = Nat.min (length (floats [9 # 10; 1 # 10]%Q)) (length answers).
Proof.
  split; [reflexivity | split; [reflexivity |]].
  exact (sequence_classification_count (pydantic := strict_coercion)
           ["yes"; "no"; "maybe"] (sc_payload (floats [9 # 10; 1 # 10]%Q))
           (PyList [PyStr "a"; PyStr "b"; PyStr "c"]) (floats [9 # 10; 1 # 10]%Q)
           [[plain_document "a"]; [plain_document "b"]; [plain_document "c"]]
           eq_refl eq_refl).
Defined.

Lemma sequence_classification_reads_prefix_witness :
  let row := [PyFloat (9 # 10); PyFloat (1 # 10); PyStr "junk"] in
  let payload := PyDict [("model_outputs", PyDict [("logits", PyList [PyList row])])] in
  logits_row payload = Ok (PyList row) /\
  logits_row (sc_payload (floats [9 # 10; 1 # 10]%Q))
    = Ok (PyList (firstn (length ["yes"; "no"]) row)) /\
  from_sequence_classification (pydantic := strict_coercion)
    ["yes"; "no"] payload PyNone
  = from_sequence_classification (pydantic := strict_coercion)
      ["yes"; "no"] (sc_payload (floats [9 # 10; 1 # 10]%Q)) PyNone.
Proof.
  split; [reflexivity | split; [reflexivity |]].
  exact (sequence_classification_reads_prefix (pydantic := strict_coercion)
           ["yes"; "no"]
           (PyDict [("model_outputs",
                     PyDict [("logits",
                              PyList [PyList [PyFloat (9 # 10); PyFloat (1 # 10);
                                              PyStr "junk"]])])])
           (sc_payload (floats [9 # 10; 1 # 10]%Q)) PyNone
           [PyFloat (9 # 10); PyFloat (1 # 10); PyStr "junk"] eq_refl eq_refl).
Defined.

Lemma sequence_classification_by_score_witness :
  let q := {| predictions := [backed "no" (9 # 10) (plain_document "doc");
                              backed "yes" (1 # 10) (plain_document "doc")] |} in
  from_sequence_classification (pydantic := strict_coercion)
    ["yes"; "no"] (sc_payload (floats [1 # 10; 9 # 10]%Q)) (PyStr "doc") = Ok q /\
  Forall (fun p => is_finite (prediction_score p)) (predictions q) /\
  StronglySorted by_score (predictions q).
Proof.
  assert (Hfin : Forall (fun p => is_finite (prediction_score p))
                   [backed "no" (9 # 10) (plain_document "doc");
                    backed "yes" (1 # 10) (plain_document "doc")])
    by (repeat constructor).
  split; [reflexivity | split; [exact Hfin |]].
  exact (sequence_classification_by_score (pydantic := strict_coercion)
           ["yes"; "no"] (sc_payload (floats [1 # 10; 9 # 10]%Q)) (PyStr "doc")
           {| predictions := [backed "no" (9 # 10) (plain_document "doc");
                              backed "yes" (1 # 10) (plain_document "doc")] |}
           eq_refl Hfin).
Defined.

Lemma question_answering_count_witness :
  let payload := typed_payload [[row "a" (1 # 2) 0 1; row "b" (1 # 4) 2 3];
                                [row "c" (3 # 4) 0 1]] in
  let q := {| predictions := [bare "c" (3 # 4); bare "a" (1 # 2); bare "b" (1 # 4)] |} in
  from_question_answering (pydantic := strict_coercion) payload PyNone PyNone
    = Ok q /\
  exists answers passages rows,
    getitem_str payload "answers" = Ok answers /\
    py_iter answers = Ok passages /\
    mapM py_iter passages = Ok rows /\
    length (predictions q) = length (concat rows).
Proof.
  split; [reflexivity |].
  exact (question_answering_count (pydantic := strict_coercion)
           (typed_payload [[row "a" (1 # 2) 0 1; row "b" (1 # 4) 2 3];
                           [row "c" (3 # 4) 0 1]])
           PyNone PyNone
           {| predictions := [bare "c" (3 # 4); bare "a" (1 # 2); bare "b" (1 # 4)] |}
           eq_refl).
Defined.

Lemma question_answering_context_too_short_witness :
  let payload := typed_payload [[row "a" (1 # 2) 0 1]; [row "b" (1 # 4) 2 3]] in
  let passages := [PyList [record "a" (1 # 2) 0 1]; PyList [record "b" (1 # 4) 2 3]] in
  getitem_str payload "answers" = Ok (PyList passages) /\
  py_iter (PyList passages) = Ok passages /\
  (Nat.min (length [PyStr "c0"]) (length [PyFloat 1; PyFloat 1]) < length passages)%nat /\
  resolve_context (Nat.min (length [PyStr "c0"]) (length [PyFloat 1; PyFloat 1]))
    (PyList [PyStr "c0"]) (PyList [PyFloat 1; PyFloat 1]) = Err IndexError /\
  exists e,
    from_question_answering (pydantic := strict_coercion) payload
      (PyList [PyStr "c0"]) (PyList [PyFloat 1; PyFloat 1]) = Err e.
Proof.
  assert (Hlen : (Nat.min (length [PyStr "c0"]) (length [PyFloat 1; PyFloat 1])
                  < length [PyList [record "a" (1 # 2) 0 1];
                            PyList [record "b" (1 # 4) 2 3]])%nat)
    by (simpl; lia).
  split; [reflexivity | split; [reflexivity | split; [exact Hlen |]]].
  exact (question_answering_context_too_short (pydantic := strict_coercion)
           (typed_payload [[row "a" (1 # 2) 0 1]; [row "b" (1 # 4) 2 3]])
           (PyList [PyList [record "a" (1 # 2) 0 1]; PyList [record "b" (1 # 4) 2 3]])
           [PyList [record "a" (1 # 2) 0 1]; PyList [record "b" (1 # 4) 2 3]]
           [PyStr "c0"] [PyFloat 1; PyFloat 1] eq_refl eq_refl Hlen).
Defined.

Lemma answer_offsets_only_with_context_witness :
  let m := [("answer", PyStr "a"); ("score", PyFloat (1 # 2))] in
  assoc "answer" m = Some (PyStr "a") /\
  assoc "score" m = Some (PyFloat (1 # 2)) /\
  assoc "start" m = None /\
  answer_prediction (pydantic := strict_coercion) (PyStr "") (PyInt 1) (PyDict m)
    = Ok (bare "a" (1 # 2)) /\
  "ctx" <> "" /\
  answer_prediction (pydantic := strict_coercion) (PyStr "ctx") (PyInt 1) (PyDict m)
    = Err KeyError.
Proof.
  destruct (answer_offsets_only_with_context (pydantic := strict_coercion)
              [("answer", PyStr "a"); ("score", PyFloat (1 # 2))] "a" (1 # 2)
              eq_refl eq_refl eq_refl) as [Hplain Hctx].
  assert (Hne : "ctx" <> "") by discriminate.
  split; [reflexivity | split; [reflexivity | split; [reflexivity | split]]].
  - exact (Hplain (PyInt 1)).
  - split; [exact Hne | exact (Hctx "ctx" (PyInt 1) Hne)].
Defined.

Lemma falsy_answer_gets_placeholder_witness :
  let r := PyDict [("answer", PyNone); ("score", PyFloat (1 # 2))] in
  let payload := qa_payload [[r]] in
  let q := {| predictions := [bare "No answer found." (1 # 2)] |} in
  from_question_answering (pydantic := strict_coercion) payload PyNone PyNone
    = Ok q /\
  qa_record payload PyNone PyNone 0 (PyStr "") (PyInt 1) r /\
  getitem_str r "answer" = Ok PyNone /\
  py_truthy PyNone = false /\
  exists p,
    answer_prediction (pydantic := strict_coercion) (PyStr "") (PyInt 1) r = Ok p /\
    In p (predictions q) /\
    output (prediction_output p) = "No answer found.".
Proof.
  assert (Hrec : qa_record
                   (qa_payload [[PyDict [("answer", PyNone);
                                         ("score", PyFloat (1 # 2))]]])
                   PyNone PyNone 0 (PyStr "") (PyInt 1)
                   (PyDict [("answer", PyNone); ("score", PyFloat (1 # 2))])).
  { eexists _, _, _, _.
    repeat split; try reflexivity. left. reflexivity. }
  split; [reflexivity | split; [exact Hrec | split; [reflexivity |
    split; [reflexivity |]]]].
  exact (falsy_answer_gets_placeholder (pydantic := strict_coercion)
           (qa_payload [[PyDict [("answer", PyNone); ("score", PyFloat (1 # 2))]]])
           PyNone PyNone
           {| predictions := [bare "No answer found." (1 # 2)] |}
           0%nat (PyStr "") (PyInt 1)
           (PyDict [("answer", PyNone); ("score", PyFloat (1 # 2))]) PyNone
           eq_refl Hrec eq_refl eq_refl).
Defined.

Lemma question_answering_shared_context_witness :
  shared_text (PyStr "ctx") = Some "ctx" /\
  exists q,
    from_question_answering (pydantic := strict_coercion)
      (typed_payload [[row "" (1 # 2) 0 0]]) (PyStr "ctx") (PyInt 1) = Ok q /\
    Permutation (map (qa_prediction "ctx") (concat [[row "" (1 # 2) 0 0]]))
                (predictions q) /\
    (Forall no_nan (predictions q) -> ranked (predictions q)).
Proof.
  split; [reflexivity |].
  exact (question_answering_shared_context (pydantic := strict_coercion)
           [[row "" (1 # 2) 0 0]] (PyStr "ctx") (PyInt 1) "ctx" eq_refl).
Defined.

Lemma question_answering_paired_contexts_witness :
  let passages := [[row "a" (1 # 2) 0 1]; [row "b" (3 # 4) 2 3]] in
  let texts := ["c0"; ""; "spare"] in
  let scores := [PyFloat 1; PyFloat 1] in
  (length passages <= length texts)%nat /\
  (length passages <= length scores)%nat /\
  exists q,
    from_question_answering (pydantic := strict_coercion)
      (typed_payload passages) (PyList (map PyStr texts)) (PyList scores) = Ok q /\
    Permutation (concat (paired_predictions texts passages)) (predictions q) /\
    (Forall no_nan (predictions q) -> ranked (predictions q)).
Proof.
  assert (Ht : (length [[row "a" (1 # 2) 0 1]; [row "b" (3 # 4) 2 3]]
                <= length ["c0"; ""; "spare"])%nat) by (simpl; lia).
  assert (Hs : (length [[row "a" (1 # 2) 0 1]; [row "b" (3 # 4) 2 3]]
                <= length [PyFloat 1; PyFloat 1])%nat) by (simpl; lia).
  split; [exact Ht | split; [exact Hs |]].
  exact (question_answering_paired_contexts (pydantic := strict_coercion)
           [[row "a" (1 # 2) 0 1]; [row "b" (3 # 4) 2 3]]
           ["c0"; ""; "spare"] [PyFloat 1; PyFloat 1] Ht Hs).
Defined.

Lemma key_of_mapping_without_document_score_witness :
  let first := [("document", PyStr "d")] in
  let m := [("prediction_score", PyFloat (1 # 2));
            ("prediction_documents", PyList [PyDict first])] in
  let p := backed "a" (1 # 2) (plain_document "d") in
  assoc "prediction_score" m = Some (PyFloat (1 # 2)) /\
  assoc "prediction_documents" m = Some (PyList [PyDict first]) /\
  assoc "document_score" first = None /\
  prediction_score p = Finite (1 # 2) /\
  prediction_documents p = [plain_document "d"] /\
  float_eq (document_score (plain_document "d")) 0 /\
  sort_predictions_key (OfValue (PyDict m)) = Ok (PyInt 1, PyFloat (1 # 2)) /\
  sort_predictions_key (OfPrediction p)
    = Ok (PyFloat (document_score (plain_document "d")), PyFloat (1 # 2)) /\
  tuple_lt (PyFloat (document_score (plain_document "d")), PyFloat (1 # 2))
           (PyInt 1, PyFloat (1 # 2))
    = Ok true.
Proof.
  do 5 (split; [reflexivity |]).
  split; [exact (Qeq_refl 0) |].
  exact (key_of_mapping_without_document_score
           [("prediction_score", PyFloat (1 # 2));
            ("prediction_documents", PyList [PyDict [("document", PyStr "d")]])]
           [("document", PyStr "d")] [] (1 # 2)
           (backed "a" (1 # 2) (plain_document "d")) (plain_document "d") []
           eq_refl eq_refl eq_refl eq_refl eq_refl (Qeq_refl 0)).
Defined.

Lemma sequence_classification_payload_errors_witness :
  _prediction_documents_iter_from_context (pydantic := strict_coercion)
    (Z.of_nat (length ["yes"; "no"])) PyNone = Ok [[]; []] /\
  (assoc "model_outputs" [("model_outputs", PyDict [("logits", PyList [])])]
     = Some (PyDict [("logits", PyList [])]) /\
   assoc "logits" [("logits", PyList [])] = Some (PyList []) /\
   from_sequence_classification (pydantic := strict_coercion) ["yes"; "no"]
     (PyDict [("model_outputs", PyDict [("logits", PyList [])])]) PyNone
   = Err IndexError) /\
  (assoc "logits" [("logits", PyList [PyFloat (9 # 10); PyFloat (1 # 10)])]
     = Some (PyList [PyFloat (9 # 10); PyFloat (1 # 10)]) /\
   from_sequence_classification (pydantic := strict_coercion) ["yes"; "no"]
     (PyDict [("model_outputs",
               PyDict [("logits", PyList [PyFloat (9 # 10); PyFloat (1 # 10)])])])
     PyNone
   = Err TypeError).
Proof.
  destruct (sequence_classification_payload_errors (pydantic := strict_coercion)
              ["yes"; "no"] PyNone [[]; []] eq_refl) as [_ [_ [Hempty Hflat]]].
  split; [reflexivity | split].
  - split; [reflexivity | split; [reflexivity |]].
    exact (Hempty [("model_outputs", PyDict [("logits", PyList [])])]
             [("logits", PyList [])] eq_refl eq_refl).
  - split; [reflexivity |].
    exact (Hflat
             [("model_outputs",
               PyDict [("logits", PyList [PyFloat (9 # 10); PyFloat (1 # 10)])])]
             [("logits", PyList [PyFloat (9 # 10); PyFloat (1 # 10)])]
             (Finite (9 # 10)) [PyFloat (1 # 10)] eq_refl eq_refl).
Defined.

Lemma question_answering_by_score_witness :
  let payload := typed_payload [[row "a" (1 # 2) 0 1; row "b" (1 # 4) 2 3];
                                [row "c" (3 # 4) 0 1]] in
  let q := {| predictions :=
                [backed "c" (3 # 4) (span_document "ctx" 0 1);
                 backed "a" (1 # 2) (span_document "ctx" 0 1);
                 backed "b" (1 # 4) (span_document "ctx" 2 3)] |} in
  shared_text (PyStr "ctx") = Some "ctx" /\
  from_question_answering (pydantic := strict_coercion) payload (PyStr "ctx")
    (PyFloat 1) = Ok q /\
  Forall (fun p => is_finite (prediction_score p)) (predictions q) /\
  StronglySorted by_score (predictions q).
Proof.
  assert (Hfin : Forall (fun p => is_finite (prediction_score p))
                   [backed "c" (3 # 4) (span_document "ctx" 0 1);
                    backed "a" (1 # 2) (span_document "ctx" 0 1);
                    backed "b" (1 # 4) (span_document "ctx" 2 3)])
    by (repeat constructor).
  split; [reflexivity | split; [reflexivity | split; [exact Hfin |]]].
  exact (question_answering_by_score (pydantic := strict_coercion)
           (typed_payload [[row "a" (1 # 2) 0 1; row "b" (1 # 4) 2 3];
                           [row "c" (3 # 4) 0 1]])
           (PyStr "ctx") (PyFloat 1) "ctx"
           {| predictions :=
                [backed "c" (3 # 4) (span_document "ctx" 0 1);
                 backed "a" (1 # 2) (span_document "ctx" 0 1);
                 backed "b" (1 # 4) (span_document "ctx" 2 3)] |}
           eq_refl eq_refl Hfin).
Defined.

Lemma query_output_never_rising_witness :
  let q := {| predictions := [bare "a" 1; bare "b" (NaN 0); bare "c" 2] |} in
  constructed (pydantic := strict_coercion) q /\
  forall l1 p1 p2 l2,
    predictions q = (l1 ++ p1 :: p2 :: l2)%list ->
    exists k1 k2,
      sort_predictions_key (OfPrediction p1) = Ok k1 /\
      sort_predictions_key (OfPrediction p2) = Ok k2 /\
      tuple_lt k1 k2 = Ok false.
Proof.
  assert (H : constructed (pydantic := strict_coercion)
                {| predictions := [bare "a" 1; bare "b" (NaN 0); bare "c" 2] |}).
  { apply constructed_direct
      with (v := [bare "a" 1; bare "b" (NaN 0); bare "c" 2]).
    reflexivity. }
  split; [exact H | exact (query_output_never_rising _ H)].
Defined.

